(** * Streaming aggregation (examples/streaming-aggregation.ipynb)

    A shallow embedding of the notebook's aggregation code: the two
    sliding-window image streams, the two cumulative-mean streams and the
    bounded queues that keep their results, followed by the properties
    the specification states about them.

    Conventions of the embedding.
    - A Python exception is a value of [exn]; a call that may raise has a
      [result] type and is sequenced with a small error monad.
    - An object mutated in place ([self.cache], [self.count], a [deque]) is
      an explicit state that every operation takes and returns.
    - Numbers are exact rationals ([Q], compared with [==]); counters are
      unbounded integers ([Z]), as Python's are.
    - A timestamp is an integer.  What [df.index.min()] and
      [df.index.max()] give is a [pyts], an [option]: [None] there stands
      for the nan/NaT pandas answers for an index without rows.  That is
      a value like any other to Python's truth test (it is true, as every
      timestamp is).  An attribute that starts as Python's [None], such as
      [self.oldest], is an [option pyts]: [None] is Python's [None], the
      only falsy case, and [Some v] holds the value [v].
    - The libraries the notebook builds on are modelled by what they do
      for it: pandas by a frame of an index and named columns,
      [collections.deque] by a list, streamz by the state its nodes keep.
      The raster reducer is left as a parameter of the streams; where a
      statement is about the reducer itself it is modelled from the
      specification (module [Datashader]). *)

From Stdlib Require Import ZArith QArith Qminmax Qfield Lia DecimalString.
From Stdlib Require Import Strings.String Strings.Ascii.
From stdpp Require Import base option list gmap strings sorting.

Local Open Scope Z_scope.

(** ** Python values, exceptions and the error monad *)

Inductive exn : Type :=
| IndexError          (* tuple index out of range *)
| KeyError (key : string)
| ValueError          (* too many / not enough values to unpack *)
| TypeError
| ZeroDivisionError
| ReductionError.     (* raised by the reducer: configured column absent *)

Inductive result (A : Type) : Type :=
| Ok (a : A)
| Raise (e : exn).

Arguments Ok {A} a.
Arguments Raise {A} e.

Definition rbind {A B} (r : result A) (k : A -> result B) : result B :=
  match r with
  | Ok a => k a
  | Raise e => Raise e
  end.

Notation "x <~ r ;; k" := (rbind r (fun x => k))
  (at level 100, r at next level, right associativity).

Definition is_ok {A} (r : result A) : bool :=
  match r with Ok _ => true | Raise _ => false end.

Definition Timestamp := Z.

(** What [df.index.min()] or [df.index.max()] gives: a timestamp, or
    the nan/NaT of an index without rows ([None]). *)
Definition pyts := option Timestamp.

(** Whether a timestamp is there (it is not nan/NaT). *)
Definition present (t : pyts) : bool :=
  match t with Some _ => true | None => false end.

(** [oldest] after [if not oldest: oldest = df.index.min()].  Python's
    [None] is falsy and is replaced by the index minimum, whatever that
    is; any value already held is truthy (a timestamp always is, and so
    is nan/NaT) and is kept. *)
Definition first_wins (oldest : option pyts) (index_minimum : pyts) : pyts :=
  match oldest with
  | None => index_minimum
  | Some v => v
  end.

(** [seq[i]] on a tuple, negative indices counting from the end. *)
Definition py_getitem {A} (l : list A) (i : Z) : result A :=
  let n := Z.of_nat (length l) in
  let idx := if i <? 0 then i + n else i in
  if (idx <? 0) || (n <=? idx) then Raise IndexError
  else match l !! Z.to_nat idx with
       | Some a => Ok a
       | None => Raise IndexError
       end.

(** ["{:.10} - {:.10}".format(a, b)]: each argument cut to ten characters. *)
Definition format_name (a b : string) : string :=
  (String.substring 0 10 a ++ " - " ++ String.substring 0 10 b)%string.

(** [total / n]. *)
Definition truediv (total : Q) (n : Z) : result Q :=
  if n =? 0 then Raise ZeroDivisionError else Ok (total / inject_Z n)%Q.

(** ** The tabular batch (a pandas DataFrame) *)

Record DataFrame : Type := mkDataFrame {
  df_index : list Timestamp;
  df_columns : gmap string (list Q)
}.

(** [pd.DataFrame()]: no rows and no columns; what [get_group] falls back
    to when the resampler has no group for a key. *)
Definition pd_DataFrame : DataFrame :=
  {| df_index := []; df_columns := ∅ |}.

Definition list_min (l : list Timestamp) : pyts :=
  match l with
  | [] => None
  | t :: r => Some (foldr Z.min t r)
  end.

Definition list_max (l : list Timestamp) : pyts :=
  match l with
  | [] => None
  | t :: r => Some (foldr Z.max t r)
  end.

(** [df.index.min()] and [df.index.max()]; for an index without rows
    they answer nan/NaT, the [None] of [pyts]. *)
Definition index_min (df : DataFrame) : pyts := list_min (df_index df).
Definition index_max (df : DataFrame) : pyts := list_max (df_index df).

Definition q_sum (l : list Q) : Q := foldr Qplus 0%Q l.

(** [df[column]]. *)
Definition df_getitem (df : DataFrame) (column : string) : result (list Q) :=
  match df_columns df !! column with
  | Some vs => Ok vs
  | None => Raise (KeyError column)
  end.

(** [df[column].sum()]. *)
Definition column_sum (df : DataFrame) (column : string) : result Q :=
  vs <~ df_getitem df column ;; Ok (q_sum vs).

(** [get_group(resampler, key)] of [taxi_trips_stream]: the resampler is
    a map from keys to groups, and a missing key raises [KeyError], which
    is caught. *)
Definition get_group (resampler : gmap Z DataFrame) (key : Z) : DataFrame :=
  match resampler !! key with
  | Some df => df
  | None => pd_DataFrame
  end.

(** ** [collections.deque(maxlen=...)] *)

(** [q.append(x)]: the item is added on the right, then the leftmost one
    is dropped when the length has passed [maxlen]. *)
Definition deque_append {A} (maxlen : nat) (q : list A) (x : A) : list A :=
  let q' := q ++ [x] in
  if (maxlen <? length q')%nat then drop 1 q' else q'.

(** A run of appends, oldest first. *)
Definition deque_extend {A} (maxlen : nat) (q : list A) (xs : list A) : list A :=
  foldl (deque_append maxlen) q xs.

(** ** The sliding-window image stream *)

Section Pipeline.

(** The collaborators the notebook calls into, left opaque: the raster
    type with its [+], [canvas.points(df, x, y, agg)] with the canvas,
    the two coordinates and the reduction already fixed, and [str] on a
    timestamp. *)
Variable Payload : Type.
Variable padd : Payload -> Payload -> Payload.
Variable points : DataFrame -> result Payload.
Variable str : pyts -> string.

(** The tuple [aggregate_df] returns: [item[0]], [item[1]], [item[2]]. *)
Record PartialAggregate : Type := mkPartial {
  minTimestamp : pyts;
  maxTimestamp : pyts;
  payload : Payload
}.

(** What [tf.shade(total, cmap, name=name)] hands back, with or without
    [tf.set_background] around it: the image keeps the name and the raster
    it was shaded from; the colours are not modelled. *)
Record Image : Type := mkImage {
  img_name : string;
  img_data : Payload
}.

(** [aggregate_df(df)]. *)
Definition aggregate_df (df : DataFrame) : result PartialAggregate :=
  let lo := index_min df in
  let hi := index_max df in
  agg <~ points df ;;
  Ok (mkPartial lo hi agg).

(** [sum(items)]: the fold starts from the integer [0], modelled as
    [None]; [0 + p] is [p]. *)
Definition py_sum (items : list Payload) : option Payload :=
  foldl (fun acc p => Some (match acc with
                            | None => p
                            | Some a => padd a p
                            end)) None items.

(** [tf.shade] accepts a raster only. *)
Definition shade (total : option Payload) (name : string) : result Image :=
  match total with
  | Some t => Ok (mkImage name t)
  | None => Raise TypeError
  end.

(** [iterable[0][0]] and [iterable[-1][1]], the two values written into
    the image's name. *)
Definition range_start (iterable : list PartialAggregate) : result pyts :=
  first <~ py_getitem iterable 0 ;; Ok (minTimestamp first).

Definition range_end (iterable : list PartialAggregate) : result pyts :=
  last <~ py_getitem iterable (-1) ;; Ok (maxTimestamp last).

(** [aggregate_images(iterable)]. *)
Definition aggregate_images (iterable : list PartialAggregate) : result Image :=
  a <~ range_start iterable ;;
  b <~ range_end iterable ;;
  let name := format_name (str a) (str b) in
  let total := py_sum (map payload iterable) in
  shade total name.

(** [SlidingWindowImageAggregate]: [self.n] and [self.cache], a
    [deque(maxlen=n)]. *)
Record SlidingWindow : Type := mkSlidingWindow {
  sw_n : nat;
  cache : list PartialAggregate
}.

(** [SlidingWindowImageAggregate.__init__]. *)
Definition SlidingWindow_init (n : nat) : SlidingWindow :=
  {| sw_n := n; cache := [] |}.

(** [update(self, x)]: the new state and what is emitted, or the
    exception that left [update]. *)
Definition SlidingWindow_update (s : SlidingWindow) (x : DataFrame)
  : SlidingWindow * result Image :=
  match aggregate_df x with
  | Raise e => (s, Raise e)
  | Ok p =>
      let s' := {| sw_n := sw_n s; cache := deque_append (sw_n s) (cache s) p |} in
      (s', aggregate_images (cache s'))
  end.

(** The batches pushed one after the other; for each, the state it left
    and its outcome. *)
Fixpoint SlidingWindow_run (s : SlidingWindow) (xs : list DataFrame)
  : list (SlidingWindow * result Image) :=
  match xs with
  | [] => []
  | x :: xs' =>
      let sr := SlidingWindow_update s x in
      sr :: SlidingWindow_run (fst sr) xs'
  end.

(** How many of the batches the reducer returned on. *)
Definition reduced (xs : list DataFrame) : nat :=
  length (List.filter (fun x => is_ok (points x)) xs).

(** The minimum and maximum the specification asks for: over the whole
    window, entries without a timestamp ignored. *)
Definition ts_min (a b : pyts) : pyts :=
  match a, b with
  | Some x, Some y => Some (Z.min x y)
  | Some x, None => Some x
  | None, _ => b
  end.

Definition ts_max (a b : pyts) : pyts :=
  match a, b with
  | Some x, Some y => Some (Z.max x y)
  | Some x, None => Some x
  | None, _ => b
  end.

Definition spec_rangeStart (w : list PartialAggregate) : pyts :=
  foldr ts_min None (map minTimestamp w).

Definition spec_rangeEnd (w : list PartialAggregate) : pyts :=
  foldr ts_max None (map maxTimestamp w).

Definition ts_leb (a b : pyts) : bool :=
  match a, b with
  | Some x, Some y => x <=? y
  | _, _ => false
  end.

(** A window in time order: every timestamp is there, and from one
    element to the next neither the minimum nor the maximum goes back. *)
Fixpoint time_ordered (w : list PartialAggregate) : bool :=
  match w with
  | [] => true
  | p :: rest =>
      match rest with
      | [] => present (minTimestamp p) && present (maxTimestamp p)
      | q :: _ =>
          ts_leb (minTimestamp p) (minTimestamp q)
          && ts_leb (maxTimestamp p) (maxTimestamp q)
          && time_ordered rest
      end
  end.

End Pipeline.

Arguments mkPartial {Payload} _ _ _.
Arguments minTimestamp {Payload} _.
Arguments maxTimestamp {Payload} _.
Arguments payload {Payload} _.
Arguments mkImage {Payload} _ _.
Arguments img_name {Payload} _.
Arguments img_data {Payload} _.
Arguments mkSlidingWindow {Payload} _ _.
Arguments sw_n {Payload} _.
Arguments cache {Payload} _.
Arguments SlidingWindow_init {Payload} _.
Arguments range_start {Payload} _.
Arguments range_end {Payload} _.
Arguments spec_rangeStart {Payload} _.
Arguments spec_rangeEnd {Payload} _.
Arguments time_ordered {Payload} _.
Arguments aggregate_df {Payload} _ _.
Arguments reduced {Payload} _ _.
Arguments py_sum {Payload} _ _.
Arguments shade {Payload} _ _.
Arguments aggregate_images {Payload} _ _ _.
Arguments SlidingWindow_update {Payload} _ _ _ _ _.
Arguments SlidingWindow_run {Payload} _ _ _ _ _.

(** ** The queue a stream sinks into: [s.sink(q.append)] *)

Definition sink_append {A} (history : nat) (q : list A) (r : result A) : list A :=
  match r with
  | Ok v => deque_append history q v
  | Raise _ => q
  end.

(** The values a stream emitted, in order, and the queue after the
    stream's outcomes have gone to the sink. *)
Definition emitted {A} (results : list (result A)) : list A :=
  omap (fun r => match r with Ok v => Some v | Raise _ => None end) results.

Definition sink_run {A} (history : nat) (q : list A) (results : list (result A))
  : list A :=
  foldl (sink_append history) q results.

(** ** The cumulative mean stream, [CumulativeMean] *)

Definition Emission : Type := pyts * pyts * Q.

Record CumulativeMean : Type := mkCumulativeMean {
  column : string;
  count : Z;
  total : Q;
  oldest : option pyts
}.

(** [CumulativeMean.__init__]. *)
Definition CumulativeMean_init (col : string) : CumulativeMean :=
  {| column := col; count := 0; total := 0%Q; oldest := None |}.

(** [update(self, x)].  [self.oldest] is assigned before the column is
    read, so it keeps its new value when the read raises; [self.count]
    and [self.total] are assigned together, after both right-hand sides
    have been evaluated.  After the conditional [self.oldest] holds a
    value, [oldest'], and that value is what the tuple emitted carries. *)
Definition CumulativeMean_update (s : CumulativeMean) (x : DataFrame)
  : CumulativeMean * result Emission :=
  let oldest' := first_wins (oldest s) (index_min x) in
  let s1 := {| column := column s; count := count s; total := total s;
               oldest := Some oldest' |} in
  match column_sum x (column s) with
  | Raise e => (s1, Raise e)
  | Ok sm =>
      let s2 := {| column := column s; count := count s + 1;
                   total := (total s + sm)%Q; oldest := Some oldest' |} in
      (s2, m <~ truediv (total s2) (count s2) ;;
           Ok (oldest', index_max x, m))
  end.

Fixpoint CumulativeMean_run (s : CumulativeMean) (xs : list DataFrame)
  : list (CumulativeMean * result Emission) :=
  match xs with
  | [] => []
  | x :: xs' =>
      let sr := CumulativeMean_update s x in
      sr :: CumulativeMean_run (fst sr) xs'
  end.

(** The states [update] can lead to from a fresh stream, whether or not
    a call raised on the way. *)
Inductive reachable (col : string) : CumulativeMean -> Prop :=
| reach_init : reachable col (CumulativeMean_init col)
| reach_update s x :
    reachable col s -> reachable col (fst (CumulativeMean_update s x)).

(** ** The cumulative mean built from streamz primitives,
       [cumulative_mean_queue] *)

(** The two tuple shapes that reach [accumulator] and [merge]: the seed
    [(n, total, oldest)], whose [oldest] may be Python's [None], and what
    [accumulator] returns, [(n, total, oldest, latest)], whose [oldest]
    holds a value. *)
Inductive acc : Type :=
| Tuple3 (n : Z) (total : Q) (oldest : option pyts)
| Tuple4 (n : Z) (total : Q) (oldest latest : pyts).

(** [start=(0, 0, None)]. *)
Definition start : acc := Tuple3 0 0%Q None.

(** [accumulator(acc, df)]; [n, total, oldest = acc] raises [ValueError]
    on a tuple that does not have three items. *)
Definition accumulator (col : string) (a : acc) (df : DataFrame) : result acc :=
  match a with
  | Tuple3 n total oldest =>
      let oldest := first_wins oldest (index_min df) in
      sm <~ column_sum df col ;;
      Ok (Tuple4 (n + 1) (total + sm)%Q oldest (index_max df))
  | Tuple4 _ _ _ _ => Raise ValueError
  end.

(** [merge(value)]. *)
Definition merge (value : acc) : result Emission :=
  match value with
  | Tuple4 n total oldest latest =>
      m <~ truediv total n ;; Ok (oldest, latest, m)
  | Tuple3 _ _ _ => Raise ValueError
  end.

(** The state of the pipeline [source.accumulate(...).map(merge).sink(q.append)]:
    the accumulate node's state and the queue. *)
Record MeanQueue : Type := mkMeanQueue {
  mq_state : acc;
  mq_queue : list Emission
}.

Definition cumulative_mean_queue : MeanQueue :=
  {| mq_state := start; mq_queue := [] |}.

(** One batch pushed through the pipeline.  streamz's accumulate node
    calls [func(state, x)], stores the returned value as the new state and
    emits it; an exception leaves the state as it was. *)
Definition MeanQueue_push (col : string) (history : nat)
    (s : MeanQueue) (df : DataFrame) : MeanQueue * result Emission :=
  match accumulator col (mq_state s) df with
  | Raise e => (s, Raise e)
  | Ok value =>
      let r := merge value in
      ({| mq_state := value; mq_queue := sink_append history (mq_queue s) r |}, r)
  end.

Fixpoint MeanQueue_run (col : string) (history : nat)
    (s : MeanQueue) (xs : list DataFrame) : list (MeanQueue * result Emission) :=
  match xs with
  | [] => []
  | x :: xs' =>
      let sr := MeanQueue_push col history s x in
      sr :: MeanQueue_run col history (fst sr) xs'
  end.

(** The accumulate node is either still at [start] or holds the 4-tuple
    of its one successful call, with [n = 1]. *)
Definition mq_inv (s : MeanQueue) : Prop :=
  mq_state s = start \/ exists t o l, mq_state s = Tuple4 1 t o l.

Definition is_tuple4 (a : acc) : bool :=
  match a with Tuple4 _ _ _ _ => true | Tuple3 _ _ _ => false end.

(** How many of the pushes of a run returned. *)
Definition successes {S A} (trace : list (S * result A)) : nat :=
  length (List.filter (fun sr => is_ok (snd sr)) trace).

(** ** The reducer behind [canvas.points]

    [Canvas.points] and the reductions [ds.min], [ds.max], [ds.mean],
    [ds.sum] and [ds.count] are datashader's own code, which is not
    among the sources; the notebook only calls them.  They are modelled
    here from the specification's description of the reducer. *)

Module Datashader.

(** Modelled from the spec: the closed set of reduction operators
    (datashader's reductions, not among the sources); all but [count]
    read a column. *)
Inductive reduction : Type :=
| r_min (col : string)
| r_max (col : string)
| r_mean (col : string)
| r_sum (col : string)
| r_count.

(** Modelled from the spec: the key extractor (datashader's [Canvas],
    not among the sources): how many bins the canvas has and which one
    a point falls into ([None] outside the canvas ranges). *)
Record Canvas : Type := mkCanvas {
  nbins : nat;
  bin_of : Q -> Q -> option nat
}.

(** Modelled from the spec: the raster payload [Canvas.points] returns
    (not among the sources): one cell per bin, [None] for a cell that
    holds nothing. *)
Definition Raster : Type := list (option Q).

(** Modelled from the spec: the identity element of a reduction
    operator (datashader's reductions, not among the sources): what a
    cell holds when no record falls in it; 0 for sum and count, an empty
    cell otherwise. *)
Definition identity (agg : reduction) : option Q :=
  match agg with
  | r_sum _ | r_count => Some 0%Q
  | r_min _ | r_max _ | r_mean _ => None
  end.

(** Modelled from the spec: a reduction operator applied to the values
    of one key (datashader's reductions, not among the sources). *)
Definition reduce_cell (agg : reduction) (vs : list Q) : option Q :=
  match vs with
  | [] => identity agg
  | v :: r =>
      match agg with
      | r_min _ => Some (foldr Qmin v r)
      | r_max _ => Some (foldr Qmax v r)
      | r_mean _ => Some (q_sum vs / inject_Z (Z.of_nat (length vs)))%Q
      | r_sum _ => Some (q_sum vs)
      | r_count => Some (inject_Z (Z.of_nat (length vs)))
      end
  end.

(** Modelled from the spec: the reducer's read of a configured column
    (inside [Canvas.points], not among the sources); [ReductionError]
    when the batch does not have it. *)
Definition configured (df : DataFrame) (col : string) : result (list Q) :=
  match df_columns df !! col with
  | Some vs => Ok vs
  | None => Raise ReductionError
  end.

(** Modelled from the spec: the column a reduction operator is
    configured with, if any (datashader's reductions, not among the
    sources). *)
Definition reduction_column (agg : reduction) : option string :=
  match agg with
  | r_min c | r_max c | r_mean c | r_sum c => Some c
  | r_count => None
  end.

(** Modelled from the spec: the values the operator reduces, one per
    record (inside [Canvas.points], not among the sources); [count]
    reads no column. *)
Definition values_of (df : DataFrame) (agg : reduction) (rows : nat)
  : result (list Q) :=
  match reduction_column agg with
  | Some c => configured df c
  | None => Ok (replicate rows 1%Q)
  end.

(** Modelled from the spec: [Canvas.points(df, x, y, agg)] of
    datashader, which the notebook calls and whose code is not among the
    sources.  The specification's reducer: a key-extractor pair (two
    column selectors) and a reduction operator applied per key (per
    spatial bin); it raises [ReductionError] when a configured column
    or key is absent from the batch, and a bin that receives no record
    holds the operator's identity. *)
Definition points (cvs : Canvas) (x y : string) (agg : reduction)
    (df : DataFrame) : result Raster :=
  xs <~ configured df x ;;
  ys <~ configured df y ;;
  vs <~ values_of df agg (length xs) ;;
  let rows := zip (zip xs ys) vs in
  let in_bin (k : nat) :=
    omap (fun r : Q * Q * Q =>
            match bin_of cvs (fst (fst r)) (snd (fst r)) with
            | Some b => if Nat.eqb b k then Some (snd r) else None
            | None => None
            end) rows in
  Ok (map (fun k => reduce_cell agg (in_bin k)) (seq 0 (nbins cvs))).

(** Modelled from the spec: [a + b] on rasters (the arrays
    [Canvas.points] returns, not among the sources), cell by cell; an
    empty cell stays empty. *)
Definition raster_add (a b : Raster) : Raster :=
  zip_with (fun u v => match u, v with
                       | Some p, Some q => Some (p + q)%Q
                       | _, _ => None
                       end) a b.

(** A canvas of two bins split at [x = 0], the configuration of the
    notebook's [max_amount] on it, and a plain [str], used where a
    statement is evaluated on concrete data. *)
Definition demo_canvas : Canvas :=
  {| nbins := 2;
     bin_of := fun x _ => Some (if Qle_bool 0 x then 1%nat else 0%nat) |}.

Definition demo_points : DataFrame -> result Raster :=
  points demo_canvas "pickup_x" "pickup_y" (r_max "total_amount").

Definition demo_str (t : pyts) : string :=
  match t with
  | None => "NaT"
  | Some z => NilZero.string_of_int (Z.to_int z)
  end.

(** A day of two trips, with all the columns. *)
Definition day (t0 : Timestamp) (amount : Q) : DataFrame :=
  {| df_index := [t0; t0 + 1];
     df_columns := {[ "pickup_x" := [1%Q; (-1)%Q];
                      "pickup_y" := [0%Q; 0%Q];
                      "total_amount" := [amount; 2%Q];
                      "passenger_count" := [1%Q; 3%Q] ]} |}.

(** A batch without rows that still has its columns. *)
Definition no_rows : DataFrame :=
  {| df_index := [];
     df_columns := {[ "pickup_x" := [];
                      "pickup_y" := [];
                      "total_amount" := [];
                      "passenger_count" := [] ]} |}.

(** A batch that has only the passenger counts of its trips. *)
Definition trips (t0 : Timestamp) (passengers : list Q) : DataFrame :=
  {| df_index := map (fun i => t0 + Z.of_nat i) (seq 0 (length passengers));
     df_columns := {[ "passenger_count" := passengers ]} |}.

End Datashader.

(** ** What a run has taken in *)

(** The partial aggregates of the batches the reducer returned on, in
    arrival order. *)
Definition partials {Payload} (points : DataFrame -> result Payload)
    (xs : list DataFrame) : list (PartialAggregate Payload) :=
  emitted (map (aggregate_df points) xs).

(** The column sums of the batches that have the column, in arrival
    order. *)
Definition accepted_sums (col : string) (xs : list DataFrame) : list Q :=
  emitted (map (fun x => column_sum x col) xs).

(** The first batch that has the column. *)
Fixpoint first_accepted (col : string) (xs : list DataFrame) : option DataFrame :=
  match xs with
  | [] => None
  | x :: rest => if is_ok (column_sum x col) then Some x else first_accepted col rest
  end.

(** Batches in time order: every one has rows, and from one batch to
    the next neither the index minimum nor the index maximum goes back. *)
Fixpoint frames_in_order (xs : list DataFrame) : bool :=
  match xs with
  | [] => true
  | x :: rest =>
      match rest with
      | [] => present (index_min x) && present (index_max x)
      | y :: _ =>
          ts_leb (index_min x) (index_min y)
          && ts_leb (index_max x) (index_max y)
          && frames_in_order rest
      end
  end.

(** ** The source of batches, [taxi_trips_stream] *)

(** [itertools.cycle(range(n))], seen from the index it gave last: the
    next one, and 0 again after the last. *)
Definition cycle_next (n i : nat) : nat :=
  if (S i <? n)%nat then S i else 0%nat.

(** The generator: the chunks it was built with and the index the cycle
    gives next. *)
Record TripsStream : Type := mkTripsStream {
  chunks : list DataFrame;
  position : nat
}.

(** [taxi_trips_stream(...)] once the file is read and resampled: the
    resampler is the list of its group keys and the map from the keys
    that have rows to their frames;
    [chunks = [get_group(r, g) for g in sorted(r.groups)]]. *)
Definition taxi_trips_stream (groups : list Z) (frames : gmap Z DataFrame)
  : TripsStream :=
  {| chunks := map (get_group frames) (merge_sort Z.le groups);
     position := 0 |}.

(** [next(trips)]: [chunks[next(indices)]]; without chunks the cycle has
    nothing to give and the generator yields nothing. *)
Definition TripsStream_next (g : TripsStream) : option (DataFrame * TripsStream) :=
  match chunks g !! position g with
  | Some c =>
      Some (c, {| chunks := chunks g;
                  position := cycle_next (length (chunks g)) (position g) |})
  | None => None
  end.

(** The first [k] batches the generator yields. *)
Fixpoint TripsStream_take (k : nat) (g : TripsStream) : list DataFrame :=
  match k with
  | O => []
  | S k' =>
      match TripsStream_next g with
      | Some (c, g') => c :: TripsStream_take k' g'
      | None => []
      end
  end.

(** ** The streams of one source, [source.emit] *)

Section Engine.

Variable Payload : Type.
Variable padd : Payload -> Payload -> Payload.
Variable points : DataFrame -> result Payload.
Variable str : pyts -> string.

(** A stream registered on the source together with the queue it sinks
    into: [SlidingWindowImageAggregate(...).sink(q.append)] or
    [CumulativeMean(...).sink(q.append)], with [q = deque(maxlen=history)]. *)
Inductive Aggregator : Type :=
| AggWindow (s : SlidingWindow Payload) (history : nat) (q : list (Image Payload))
| AggMean (s : CumulativeMean) (history : nat) (q : list Emission).

(** [child.update(x)]: the stream's own update, whose emission goes to
    the sink. *)
Definition Aggregator_update (a : Aggregator) (x : DataFrame)
  : Aggregator * result unit :=
  match a with
  | AggWindow s history q =>
      let sr := SlidingWindow_update padd points str s x in
      (AggWindow (fst sr) history (sink_append history q (snd sr)),
       _ <~ snd sr ;; Ok tt)
  | AggMean s history q =>
      let sr := CumulativeMean_update s x in
      (AggMean (fst sr) history (sink_append history q (snd sr)),
       _ <~ snd sr ;; Ok tt)
  end.

(** [source.emit(x)]: the children are updated one after the other, in
    the order they were registered; an exception leaves the loop. *)
Fixpoint source_emit (children : list Aggregator) (x : DataFrame)
  : list Aggregator * result unit :=
  match children with
  | [] => ([], Ok tt)
  | a :: rest =>
      let ar := Aggregator_update a x in
      match snd ar with
      | Raise e => (fst ar :: rest, Raise e)
      | Ok _ =>
          let rr := source_emit rest x in
          (fst ar :: fst rr, snd rr)
      end
  end.

(** A stream whose window and queue are within their bounds. *)
Definition Aggregator_bounded (a : Aggregator) : Prop :=
  match a with
  | AggWindow s history q =>
      (length (cache s) <= sw_n s)%nat /\ (length q <= history)%nat
  | AggMean s history q => 0 <= count s /\ (length q <= history)%nat
  end.

End Engine.

Arguments AggWindow {Payload} _ _ _.
Arguments AggMean {Payload} _ _ _.
Arguments Aggregator_update {Payload} _ _ _ _ _.
Arguments source_emit {Payload} _ _ _ _ _.
Arguments Aggregator_bounded {Payload} _.

(** * Properties *)

Import Datashader.

(** ** The bounded queue *)

Section Deque.
Context {A : Type}.
Implicit Types (q xs : list A) (x : A) (maxlen : nat).

Lemma deque_append_room maxlen q x :
  (length q < maxlen)%nat -> deque_append maxlen q x = q ++ [x].
Proof.
  intros Hlt. unfold deque_append.
  rewrite length_app. cbn [length].
  destruct (Nat.ltb_spec maxlen (length q + 1)); [lia | reflexivity].
Qed.

Lemma deque_append_full maxlen q x :
  (maxlen <= length q)%nat -> deque_append maxlen q x = drop 1 (q ++ [x]).
Proof.
  intros Hle. unfold deque_append.
  rewrite length_app. cbn [length].
  destruct (Nat.ltb_spec maxlen (length q + 1)); [reflexivity | lia].
Qed.

(** An append keeps the last [maxlen] items of what it is given. *)
Lemma deque_append_drop maxlen q x :
  (length q <= maxlen)%nat ->
  deque_append maxlen q x = drop (length q + 1 - maxlen) (q ++ [x]).
Proof.
  intros Hle.
  destruct (Nat.lt_ge_cases (length q) maxlen) as [Hlt | Hge].
  - rewrite deque_append_room by assumption.
    replace (length q + 1 - maxlen)%nat with 0%nat by lia. reflexivity.
  - rewrite deque_append_full by assumption.
    replace (length q + 1 - maxlen)%nat with 1%nat by lia. reflexivity.
Qed.

Lemma deque_append_length maxlen q x :
  (length q <= maxlen)%nat ->
  length (deque_append maxlen q x) = Nat.min (length q + 1) maxlen.
Proof.
  intros Hle. rewrite deque_append_drop by assumption.
  rewrite length_drop, length_app. cbn [length]. lia.
Qed.

Lemma deque_append_bounded maxlen q x :
  (length q <= maxlen)%nat -> (length (deque_append maxlen q x) <= maxlen)%nat.
Proof. intros Hle. rewrite deque_append_length by assumption. lia. Qed.

Lemma deque_append_nonempty maxlen q x :
  (1 <= maxlen)%nat -> deque_append maxlen q x <> [].
Proof.
  intros Hpos Hnil. apply (f_equal length) in Hnil. revert Hnil.
  unfold deque_append.
  destruct (Nat.ltb_spec maxlen (length (q ++ [x]))) as [Hlt | Hge];
    rewrite ?length_drop, length_app in *; cbn [length] in *; lia.
Qed.

(** A run of appends keeps the last [maxlen] items of all it has seen. *)
Lemma deque_extend_drop maxlen xs : forall q,
  (length q <= maxlen)%nat ->
  deque_extend maxlen q xs = drop (length q + length xs - maxlen) (q ++ xs).
Proof.
  unfold deque_extend.
  induction xs as [| x xs IH]; intros q Hle.
  - cbn [foldl length]. rewrite app_nil_r.
    replace (length q + 0 - maxlen)%nat with 0%nat by lia. reflexivity.
  - cbn [foldl length].
    rewrite IH by (apply deque_append_bounded; assumption).
    rewrite deque_append_length by assumption.
    rewrite deque_append_drop by assumption.
    rewrite <- drop_app_le by (rewrite length_app; cbn [length]; lia).
    rewrite drop_drop, <- app_assoc. cbn [app].
    f_equal. lia.
Qed.

(** The sink sees the emitted values only. *)
Lemma sink_run_extend maxlen (results : list (result A)) : forall q,
  sink_run maxlen q results = deque_extend maxlen q (emitted results).
Proof.
  unfold sink_run, deque_extend, emitted.
  induction results as [| r results IH]; intros q; [reflexivity |].
  destruct r as [v | e]; cbn [foldl omap list_omap sink_append]; apply IH.
Qed.

End Deque.

(** C6.  A queue of capacity [H >= 1] that has been pushed more than [H]
    items holds exactly [H] of them: the last [H] pushed, in push order,
    oldest first.  In particular a queue of capacity 2 pushed [a], [b],
    [c] holds [b; c].  The queue a stream sinks into is pushed the
    stream's emissions, so it holds the last [H] of them. *)
Theorem retention_buffer_keeps_last {A : Type} (H : nat) (items : list A) :
  (1 <= H)%nat ->
  (H < length items)%nat ->
  length (deque_extend H [] items) = H
  /\ deque_extend H [] items = drop (length items - H) items
  /\ (forall a b c : A, deque_extend 2 [] [a; b; c] = [b; c])
  /\ (forall results : list (result A),
        emitted results = items ->
        sink_run H [] results = drop (length items - H) items).
Proof.
  intros _ Hlen.
  rewrite deque_extend_drop by (cbn; lia).
  cbn [length app Nat.add].
  split; [| split; [| split]].
  - rewrite length_drop. lia.
  - reflexivity.
  - intros a b c. rewrite deque_extend_drop by (cbn; lia). reflexivity.
  - intros results <-. rewrite sink_run_extend.
    rewrite deque_extend_drop by (cbn; lia). reflexivity.
Qed.

Lemma retention_buffer_keeps_last_witness :
  length (deque_extend 2 [] [10; 20; 30; 40]) = 2%nat
  /\ deque_extend 2 [] [10; 20; 30; 40] = drop (length [10; 20; 30; 40] - 2) [10; 20; 30; 40]
  /\ (forall a b c : Z, deque_extend 2 [] [a; b; c] = [b; c])
  /\ (forall results : list (result Z),
        emitted results = [10; 20; 30; 40] ->
        sink_run 2 [] results = drop (length [10; 20; 30; 40] - 2) [10; 20; 30; 40]).
Proof.
  apply (@retention_buffer_keeps_last Z 2 [10; 20; 30; 40]); [lia | cbn [length]; lia].
Defined.

(** ** Indexing and the combiner *)

Lemma py_getitem_first {A} (a : A) (l : list A) : py_getitem (a :: l) 0 = Ok a.
Proof.
  unfold py_getitem. cbn [length Z.ltb Z.compare].
  destruct (Z.leb_spec (Z.of_nat (S (length l))) 0); [lia | reflexivity].
Qed.

Lemma py_getitem_last {A} (l : list A) (a : A) : py_getitem (l ++ [a]) (-1) = Ok a.
Proof.
  unfold py_getitem. rewrite length_app. cbn [length].
  change (-1 <? 0) with true. cbv iota.
  replace (-1 + Z.of_nat (length l + 1)) with (Z.of_nat (length l)) by lia.
  destruct (Z.ltb_spec (Z.of_nat (length l)) 0); [lia |].
  destruct (Z.leb_spec (Z.of_nat (length l + 1)) (Z.of_nat (length l))); [lia |].
  cbn [orb]. rewrite Nat2Z.id.
  rewrite lookup_app_r by lia. rewrite Nat.sub_diag. reflexivity.
Qed.

Lemma py_getitem_nil {A} (i : Z) : py_getitem (@nil A) i = Raise IndexError.
Proof.
  unfold py_getitem. cbn [length].
  destruct (i <? 0);
    match goal with |- context [?a <? 0] => destruct (a <? 0) end;
    match goal with |- context [?a <=? ?b] => destruct (a <=? b) end;
    reflexivity.
Qed.

(** A non-empty list seen from its end. *)
Lemma nonempty_snoc {A} (l : list A) : l <> [] -> exists l' a, l = l' ++ [a].
Proof.
  intros Hne. destruct (exists_last Hne) as (l' & a & ->). eauto.
Qed.

Section Combiner.
Context {Payload : Type}.
Variable padd : Payload -> Payload -> Payload.
Variable str : pyts -> string.
Implicit Types (w : list (PartialAggregate Payload)) (p : PartialAggregate Payload).

Lemma range_start_cons p w : range_start (p :: w) = Ok (minTimestamp p).
Proof. unfold range_start. rewrite py_getitem_first. reflexivity. Qed.

Lemma range_end_snoc w p : range_end (w ++ [p]) = Ok (maxTimestamp p).
Proof. unfold range_end. rewrite py_getitem_last. reflexivity. Qed.

Lemma py_sum_nonempty (x : Payload) (xs : list Payload) :
  exists t, py_sum padd (x :: xs) = Some t.
Proof.
  unfold py_sum. cbn [foldl].
  generalize x. induction xs as [| y ys IH]; intros a; cbn [foldl]; eauto.
Qed.

(** On a window that is not empty the combiner returns, and the name it
    gives the image is written from the first element's minimum and the
    last element's maximum. *)
Lemma aggregate_images_returns p w w' q :
  p :: w = w' ++ [q] ->
  exists img,
    aggregate_images padd str (p :: w) = Ok img
    /\ img_name img = format_name (str (minTimestamp p)) (str (maxTimestamp q)).
Proof.
  intros Heq. unfold aggregate_images.
  assert (Hend : range_end (p :: w) = Ok (maxTimestamp q))
    by (rewrite Heq; apply range_end_snoc).
  rewrite range_start_cons, Hend. cbn [rbind map].
  destruct (py_sum_nonempty (payload p) (map payload w)) as [t ->].
  cbn [shade]. eexists. split; reflexivity.
Qed.

Lemma aggregate_images_ok w :
  w <> [] -> exists img, aggregate_images padd str w = Ok img.
Proof.
  intros Hne. destruct w as [| p w]; [easy |].
  destruct (nonempty_snoc (p :: w)) as (w' & q & Heq); [easy |].
  destruct (aggregate_images_returns p w w' q Heq) as (img & Himg & _). eauto.
Qed.

Lemma aggregate_images_empty : aggregate_images padd str [] = Raise IndexError.
Proof. reflexivity. Qed.

End Combiner.

(** ** The range written into the image's name *)

Section Range.
Context {Payload : Type}.
Implicit Types (w : list (PartialAggregate Payload)) (p q : PartialAggregate Payload).

Lemma range_end_cons p w : w <> [] -> range_end (p :: w) = range_end w.
Proof.
  intros Hne. destruct (nonempty_snoc w Hne) as (w' & z & ->).
  rewrite app_comm_cons, !range_end_snoc. reflexivity.
Qed.

Lemma ts_leb_le (a b : pyts) :
  ts_leb a b = true -> exists x y, a = Some x /\ b = Some y /\ x <= y.
Proof.
  destruct a as [x |], b as [y |]; cbn; try discriminate.
  intros Hle. exists x, y. repeat split. lia.
Qed.

Lemma time_ordered_head p w :
  time_ordered (p :: w) = true ->
  exists a b, minTimestamp p = Some a /\ maxTimestamp p = Some b.
Proof.
  destruct w as [| q w]; cbn [time_ordered]; intros Hord.
  - apply andb_prop in Hord as [Ha Hb].
    destruct (minTimestamp p), (maxTimestamp p); try discriminate; eauto.
  - apply andb_prop in Hord as [Hord _]. apply andb_prop in Hord as [Ha Hb].
    apply ts_leb_le in Ha as (a & _ & -> & _).
    apply ts_leb_le in Hb as (b & _ & -> & _). eauto.
Qed.

(** In a window in time order the first minimum is the least one. *)
Lemma spec_rangeStart_ordered w : forall p,
  time_ordered (p :: w) = true -> spec_rangeStart (p :: w) = minTimestamp p.
Proof.
  induction w as [| q w IH]; intros p Hord.
  - destruct (time_ordered_head _ _ Hord) as (a & b & Ha & _).
    unfold spec_rangeStart. cbn. rewrite Ha. reflexivity.
  - cbn [time_ordered] in Hord.
    apply andb_prop in Hord as [Hord Hrest]. apply andb_prop in Hord as [Ha _].
    apply ts_leb_le in Ha as (a & a' & Hp & Hq & Hle).
    specialize (IH q Hrest). unfold spec_rangeStart in *.
    cbn [map foldr] in *. rewrite IH, Hp, Hq. cbn [ts_min].
    f_equal. lia.
Qed.

(** ... and the last maximum is the greatest one. *)
Lemma spec_rangeEnd_ordered w : forall p,
  time_ordered (p :: w) = true ->
  exists b e, maxTimestamp p = Some b /\ b <= e
              /\ spec_rangeEnd (p :: w) = Some e
              /\ range_end (p :: w) = Ok (Some e).
Proof.
  induction w as [| q w IH]; intros p Hord.
  - destruct (time_ordered_head _ _ Hord) as (a & b & _ & Hb).
    exists b, b. repeat split; [assumption | lia | |].
    + unfold spec_rangeEnd. cbn. rewrite Hb. reflexivity.
    + change [p] with ([] ++ [p]). rewrite range_end_snoc, Hb. reflexivity.
  - cbn [time_ordered] in Hord.
    apply andb_prop in Hord as [Hord Hrest]. apply andb_prop in Hord as [_ Hb].
    apply ts_leb_le in Hb as (b & b' & Hp & Hq & Hle).
    destruct (IH q Hrest) as (b0 & e & Hq0 & Hle0 & Hspec & Hend).
    assert (b0 = b') by congruence. subst b0.
    exists b, e. repeat split; [assumption | lia | |].
    + unfold spec_rangeEnd in *. cbn [map foldr] in *.
      rewrite Hspec, Hp. cbn [ts_max]. f_equal. lia.
    + rewrite range_end_cons by easy. assumption.
Qed.

End Range.

(** C1, as the code has it.  For every non-empty window the combiner
    returns an image whose name is formatted from the first element's
    minimum and the last element's maximum: these two are the start and
    the end of the range, and the window is not scanned.  For a window in
    time order (every timestamp present, and neither the minima nor the
    maxima going back from one element to the next) they are the minimum
    of all the minima and the maximum of all the maxima, and the name is
    formatted from those. *)
Theorem aggregate_images_range_ordered {Payload : Type}
    (padd : Payload -> Payload -> Payload) (str : pyts -> string)
    (w : list (PartialAggregate Payload)) :
  w <> [] ->
  (forall p w', w = p :: w' -> range_start w = Ok (minTimestamp p))
  /\ (forall w' q, w = w' ++ [q] -> range_end w = Ok (maxTimestamp q))
  /\ (forall p w' w'' q,
        w = p :: w' -> w = w'' ++ [q] ->
        exists img,
          aggregate_images padd str w = Ok img
          /\ img_name img
             = format_name (str (minTimestamp p)) (str (maxTimestamp q)))
  /\ (time_ordered w = true ->
      range_start w = Ok (spec_rangeStart w)
      /\ range_end w = Ok (spec_rangeEnd w)
      /\ exists img,
           aggregate_images padd str w = Ok img
           /\ img_name img
              = format_name (str (spec_rangeStart w)) (str (spec_rangeEnd w))).
Proof.
  intros Hne. split; [| split; [| split]].
  - intros p w' ->. apply range_start_cons.
  - intros w' q ->. apply range_end_snoc.
  - intros p w' w'' q Hp Hq. rewrite Hp.
    apply (aggregate_images_returns padd str p w' w'' q). congruence.
  - intros Hord. destruct w as [| p w]; [easy |].
    pose proof (spec_rangeStart_ordered w p Hord) as Hstart.
    destruct (spec_rangeEnd_ordered w p Hord) as (b & e & _ & _ & Hspec & Hend).
    destruct (nonempty_snoc (p :: w) Hne) as (w' & q & Heq).
    destruct (aggregate_images_returns padd str p w w' q Heq) as (img & Himg & Hname).
    assert (Hq : maxTimestamp q = Some e).
    { rewrite Heq, range_end_snoc in Hend. congruence. }
    rewrite Hstart, Hspec, range_start_cons, Hend.
    repeat split. exists img. rewrite Hname, Hq. split; [assumption | reflexivity].
Qed.

Lemma aggregate_images_range_ordered_witness :
  let p := mkPartial (Some 10) (Some 11) [Some 5%Q] in
  let q := mkPartial (Some 20) (Some 21) [Some 7%Q] in
  let w := [p; q] in
  (exists img,
     aggregate_images raster_add demo_str w = Ok img
     /\ img_name img
        = format_name (demo_str (minTimestamp p)) (demo_str (maxTimestamp q)))
  /\ range_start w = Ok (spec_rangeStart w)
  /\ range_end w = Ok (spec_rangeEnd w)
  /\ exists img,
       aggregate_images raster_add demo_str w = Ok img
       /\ img_name img
          = format_name (demo_str (spec_rangeStart w)) (demo_str (spec_rangeEnd w)).
Proof.
  intros p q w.
  destruct (aggregate_images_range_ordered raster_add demo_str w)
    as (_ & _ & Hlabel & Hord).
  - discriminate.
  - split.
    + apply (Hlabel p [q] [p] q); reflexivity.
    + apply Hord. reflexivity.
Defined.

(** C1, as the specification states it, fails on a window that is not in
    time order.  The source stream cycles over its chunks, so a window of
    two holds the last day followed by the first one: the range then
    starts at the last day's minimum and ends at the first day's maximum. *)
Lemma aggregate_images_range_counterexample :
  let w := [mkPartial (Some 70) (Some 71) [Some 2%Q; Some 5%Q];
            mkPartial (Some 10) (Some 11) [Some 2%Q; Some 7%Q]] in
  SlidingWindow_run raster_add demo_points demo_str (SlidingWindow_init 2)
    [day 70 5; day 10 7] !! 1%nat
  = Some ({| sw_n := 2; cache := w |}, aggregate_images raster_add demo_str w)
  /\ w <> []
  /\ range_start w = Ok (Some 70) /\ spec_rangeStart w = Some 10
  /\ range_end w = Ok (Some 11) /\ spec_rangeEnd w = Some 71
  /\ aggregate_images raster_add demo_str w
     = Ok {| img_name := "70 - 11"; img_data := [Some 4%Q; Some 12%Q] |}
  /\ format_name (demo_str (spec_rangeStart w)) (demo_str (spec_rangeEnd w))
     = "10 - 71"%string
  /\ range_start w <> Ok (spec_rangeStart w)
  /\ range_end w <> Ok (spec_rangeEnd w).
Proof.
  cbv zeta. repeat split; try reflexivity; try discriminate.
Qed.

(** ** The sliding window *)

Section Window.
Context {Payload : Type}.
Variable padd : Payload -> Payload -> Payload.
Variable points : DataFrame -> result Payload.
Variable str : pyts -> string.

Local Abbreviation update := (SlidingWindow_update padd points str).
Local Abbreviation run := (SlidingWindow_run padd points str).
Local Abbreviation combine := (aggregate_images padd str).

Implicit Types (s : SlidingWindow Payload) (x : DataFrame).

Lemma SlidingWindow_update_ok s x a :
  points x = Ok a ->
  update s x
  = (let s' := {| sw_n := sw_n s;
                  cache := deque_append (sw_n s) (cache s)
                             (mkPartial (index_min x) (index_max x) a) |} in
     (s', combine (cache s'))).
Proof.
  intros Hok. unfold SlidingWindow_update, aggregate_df. rewrite Hok. reflexivity.
Qed.

Lemma SlidingWindow_update_raise s x e :
  points x = Raise e -> update s x = (s, Raise e).
Proof.
  intros Herr. unfold SlidingWindow_update, aggregate_df. rewrite Herr. reflexivity.
Qed.

(** Eviction invariant: no update lets the cache grow past [n]. *)
Lemma SlidingWindow_update_bounded s x :
  (length (cache s) <= sw_n s)%nat ->
  sw_n (fst (update s x)) = sw_n s
  /\ (length (cache (fst (update s x))) <= sw_n s)%nat.
Proof.
  intros Hle. destruct (points x) as [a | e] eqn:Hp.
  - rewrite (SlidingWindow_update_ok _ _ _ Hp). cbn.
    split; [reflexivity | apply deque_append_bounded; assumption].
  - rewrite (SlidingWindow_update_raise _ _ _ Hp). cbn. auto.
Qed.

Lemma SlidingWindow_run_bounded xs : forall s,
  (length (cache s) <= sw_n s)%nat ->
  forall i s' r, run s xs !! i = Some (s', r) ->
    sw_n s' = sw_n s /\ (length (cache s') <= sw_n s)%nat.
Proof.
  induction xs as [| x xs IH]; intros s Hle i s' r Hi; [discriminate |].
  destruct (SlidingWindow_update_bounded s x Hle) as [Hn Hc].
  cbn [SlidingWindow_run] in Hi.
  destruct i as [| i]; cbn [lookup list_lookup] in Hi.
  - injection Hi as Hi. rewrite Hi in Hn, Hc. cbn [fst] in Hn, Hc. auto.
  - apply IH in Hi; [| rewrite Hn; assumption].
    rewrite Hn in Hi. assumption.
Qed.

Lemma SlidingWindow_run_length xs : forall s, length (run s xs) = length xs.
Proof.
  induction xs as [| x xs IH]; intros s; cbn [SlidingWindow_run length];
    [reflexivity | f_equal; apply IH].
Qed.

(** While the reducer returns, every update emits the combination of a
    window one longer than before, up to [n]. *)
Lemma SlidingWindow_run_emits xs : forall s,
  (length (cache s) <= sw_n s)%nat ->
  (1 <= sw_n s)%nat ->
  Forall (fun x => is_ok (points x) = true) xs ->
  forall i, (i < length xs)%nat ->
    exists s' img,
      run s xs !! i = Some (s', Ok img)
      /\ combine (cache s') = Ok img
      /\ length (cache s') = Nat.min (length (cache s) + i + 1) (sw_n s).
Proof.
  induction xs as [| x xs IH]; intros s Hle Hpos Hall i Hi; [cbn in Hi; lia |].
  inversion Hall as [| ? ? Hx Hxs]; subst.
  destruct (points x) as [a | e] eqn:Hp; [clear Hx | discriminate].
  pose proof (SlidingWindow_update_ok s x a Hp) as Hup. cbv zeta in Hup.
  cbn [SlidingWindow_run]. rewrite Hup. cbn [fst].
  set (w := deque_append (sw_n s) (cache s) _) in *.
  assert (Hw : length w = Nat.min (length (cache s) + 1) (sw_n s))
    by (apply deque_append_length; assumption).
  destruct i as [| i].
  - destruct (aggregate_images_ok padd str w) as [img Himg].
    { apply deque_append_nonempty. assumption. }
    exists {| sw_n := sw_n s; cache := w |}, img. cbn.
    rewrite Himg. repeat split. rewrite Hw. f_equal. lia.
  - cbn [length] in Hi.
    destruct (IH {| sw_n := sw_n s; cache := w |}) with (i := i)
      as (s' & img & Hrun & Himg & Hlen); cbn; try assumption; try lia.
    exists s', img. cbn in Hlen. repeat split; try assumption. lia.
Qed.

(** In general: the window combined by the [i]-th update holds as many
    elements as batches have been reduced so far, up to [n]; the update
    emits when the reducer returns and passes its exception on when it
    raises. *)
Lemma SlidingWindow_run_general xs : forall s,
  (length (cache s) <= sw_n s)%nat ->
  (1 <= sw_n s)%nat ->
  forall i x, xs !! i = Some x ->
    exists s' r,
      run s xs !! i = Some (s', r)
      /\ length (cache s')
         = Nat.min (length (cache s) + reduced points (take (S i) xs)) (sw_n s)
      /\ match points x with
         | Ok _ => exists img, r = Ok img /\ combine (cache s') = Ok img
         | Raise e => r = Raise e
         end.
Proof.
  unfold reduced.
  induction xs as [| x0 xs IH]; intros s Hle Hpos i x Hi; [discriminate |].
  cbn [SlidingWindow_run take List.filter].
  destruct (points x0) as [a | e] eqn:Hp; cbn [is_ok length].
  - pose proof (SlidingWindow_update_ok s x0 a Hp) as Hup. cbv zeta in Hup.
    rewrite Hup. cbn [fst].
    set (w := deque_append (sw_n s) (cache s) _) in *.
    assert (Hw : length w = Nat.min (length (cache s) + 1) (sw_n s))
      by (apply deque_append_length; assumption).
    destruct i as [| i]; cbn [lookup list_lookup] in Hi |- *.
    + injection Hi as <-. rewrite Hp.
      destruct (aggregate_images_ok padd str w) as [img Himg].
      { apply deque_append_nonempty. assumption. }
      exists {| sw_n := sw_n s; cache := w |}, (Ok img). cbn [cache].
      rewrite take_0. cbn [List.filter length].
      repeat split; [congruence | lia | eauto].
    + destruct (IH {| sw_n := sw_n s; cache := w |}) with (i := i) (x := x)
        as (s' & r & Hrun & Hlen & Hres); cbn [cache sw_n]; try assumption; try lia.
      exists s', r. cbn [cache sw_n] in Hlen.
      repeat split; [exact Hrun | lia | exact Hres].
  - rewrite (SlidingWindow_update_raise s x0 e Hp). cbn [fst].
    destruct i as [| i]; cbn [lookup list_lookup] in Hi |- *.
    + injection Hi as <-. rewrite Hp. exists s, (Raise e).
      rewrite take_0. cbn [List.filter length].
      repeat split. lia.
    + destruct (IH s Hle Hpos i x Hi) as (s' & r & Hrun & Hlen & Hres).
      exists s', r. repeat split; assumption.
Qed.

End Window.




(** C9.  Called on an empty window the combiner raises [IndexError], the
    empty-window error.  A sliding window of size at least 1 appends
    before it combines, so the window it hands to the combiner is never
    empty, the combiner returns, and the only exception that can leave
    [update] is the reducer's. *)
Theorem combiner_empty_window_unreachable {Payload : Type}
    (padd : Payload -> Payload -> Payload)
    (points : DataFrame -> result Payload) (str : pyts -> string)
    (s : SlidingWindow Payload) (x : DataFrame) :
  aggregate_images padd str [] = Raise IndexError
  /\ ((1 <= sw_n s)%nat ->
      (forall a, points x = Ok a ->
         cache (fst (SlidingWindow_update padd points str s x)) <> []
         /\ exists img,
              snd (SlidingWindow_update padd points str s x) = Ok img
              /\ aggregate_images padd str
                   (cache (fst (SlidingWindow_update padd points str s x))) = Ok img)
      /\ (forall e, snd (SlidingWindow_update padd points str s x) = Raise e ->
            points x = Raise e)).
Proof.
  split; [reflexivity |]. intros Hpos.
  assert (Hok : forall a, points x = Ok a ->
            cache (fst (SlidingWindow_update padd points str s x)) <> []
            /\ exists img,
                 snd (SlidingWindow_update padd points str s x) = Ok img
                 /\ aggregate_images padd str
                      (cache (fst (SlidingWindow_update padd points str s x))) = Ok img).
  { intros a Hp. rewrite (SlidingWindow_update_ok padd points str s x a Hp).
    cbn [fst snd cache].
    pose proof (deque_append_nonempty (sw_n s) (cache s)
                  (mkPartial (index_min x) (index_max x) a) Hpos) as Hne.
    split; [assumption |].
    destruct (aggregate_images_ok padd str _ Hne) as [img Himg]. eauto. }
  split; [assumption |].
  intros e He. destruct (points x) as [a | e'] eqn:Hp.
  - destruct (Hok a eq_refl) as [_ (img & Himg & _)]. congruence.
  - rewrite (SlidingWindow_update_raise padd points str s x e' Hp) in He.
    cbn in He. injection He as ->. reflexivity.
Qed.

Lemma combiner_empty_window_unreachable_witness :
  cache (fst (SlidingWindow_update raster_add demo_points demo_str
                (SlidingWindow_init 2) (day 10 5))) <> []
  /\ exists img,
       snd (SlidingWindow_update raster_add demo_points demo_str
              (SlidingWindow_init 2) (day 10 5)) = Ok img
       /\ aggregate_images raster_add demo_str
            (cache (fst (SlidingWindow_update raster_add demo_points demo_str
                           (SlidingWindow_init 2) (day 10 5)))) = Ok img.
Proof.
  refine (proj1 (proj2 (combiner_empty_window_unreachable raster_add demo_points
                          demo_str (SlidingWindow_init 2) (day 10 5)) _)
            [Some 2%Q; Some 5%Q] _).
  - cbn. lia.
  - reflexivity.
Defined.

(** ** The cumulative mean *)

Lemma truediv_nonzero (t : Q) (n : Z) :
  n <> 0 -> truediv t n = Ok (t / inject_Z n)%Q.
Proof.
  intros Hn. unfold truediv. destruct (Z.eqb_spec n 0); [contradiction | reflexivity].
Qed.

Lemma CumulativeMean_update_column s x :
  column (fst (CumulativeMean_update s x)) = column s.
Proof.
  unfold CumulativeMean_update. destruct (column_sum x (column s)); reflexivity.
Qed.

(** What [update] does when the column can be summed. *)
Lemma CumulativeMean_update_sum s x sm :
  column_sum x (column s) = Ok sm ->
  count s + 1 <> 0 ->
  let o := first_wins (oldest s) (index_min x) in
  CumulativeMean_update s x
  = ({| column := column s; count := count s + 1;
        total := (total s + sm)%Q; oldest := Some o |},
     Ok (o, index_max x, ((total s + sm) / inject_Z (count s + 1))%Q)).
Proof.
  intros Hsum Hn. unfold CumulativeMean_update. rewrite Hsum.
  cbn [total count oldest]. rewrite truediv_nonzero by assumption. reflexivity.
Qed.

(** ... and when it cannot: only [oldest] may have changed. *)
Lemma CumulativeMean_update_raise s x e :
  column_sum x (column s) = Raise e ->
  CumulativeMean_update s x
  = ({| column := column s; count := count s; total := total s;
        oldest := Some (first_wins (oldest s) (index_min x)) |},
     Raise e).
Proof.
  intros Hsum. unfold CumulativeMean_update. rewrite Hsum. reflexivity.
Qed.

Lemma CumulativeMean_update_count s x :
  count (fst (CumulativeMean_update s x)) = count s
  \/ count (fst (CumulativeMean_update s x)) = count s + 1.
Proof.
  unfold CumulativeMean_update. destruct (column_sum x (column s)); cbn; auto.
Qed.

Lemma reachable_count col s : reachable col s -> 0 <= count s /\ column s = col.
Proof.
  induction 1 as [| s x Hs [IHc IHcol]].
  - cbn. split; [lia | reflexivity].
  - rewrite CumulativeMean_update_column.
    destruct (CumulativeMean_update_count s x) as [-> | ->]; split; auto; lia.
Qed.

Lemma MeanQueue_push_inv col history s x :
  mq_inv s ->
  mq_inv (fst (MeanQueue_push col history s x))
  /\ snd (MeanQueue_push col history s x) <> Raise ZeroDivisionError.
Proof.
  intros [Hs | (t & o & l & Hs)]; unfold MeanQueue_push; rewrite Hs.
  - unfold start, accumulator.
    destruct (column_sum x col) as [sm | e] eqn:Hsum; cbn.
    + split; [right; eauto | discriminate].
    + split; [left; assumption |].
      unfold column_sum, df_getitem in Hsum.
      destruct (df_columns x !! col); cbn in Hsum; congruence.
  - cbn. split; [right; eauto | discriminate].
Qed.

Lemma MeanQueue_run_inv col history xs : forall s,
  mq_inv s ->
  forall i s' r, MeanQueue_run col history s xs !! i = Some (s', r) ->
    mq_inv s' /\ r <> Raise ZeroDivisionError.
Proof.
  induction xs as [| x xs IH]; intros s Hinv i s' r Hi; [discriminate |].
  destruct (MeanQueue_push_inv col history s x Hinv) as [Hinv' Hr].
  cbn [MeanQueue_run] in Hi.
  destruct i as [| i]; cbn [lookup list_lookup] in Hi.
  - injection Hi as Hi. rewrite Hi in Hinv', Hr. auto.
  - eapply IH; eassumption.
Qed.

(** C8.  The mean is always divided by a count of at least 1.  In every
    state [update] can reach, the count is not negative, it is
    incremented before the division, and no call ends in a division by
    zero; the same holds for [merge] in the streamz pipeline, whose
    divisor is the [n = 1] of the accumulator's first result. *)
Theorem mean_division_never_by_zero (col : string) (s : CumulativeMean)
    (x : DataFrame) :
  (forall history xs i s' r,
     MeanQueue_run col history cumulative_mean_queue xs !! i = Some (s', r) ->
     r <> Raise ZeroDivisionError
     /\ forall n t o l, mq_state s' = Tuple4 n t o l -> 1 <= n)
  /\ (reachable col s ->
      1 <= count s + 1
      /\ snd (CumulativeMean_update s x) <> Raise ZeroDivisionError
      /\ forall sm, column_sum x (column s) = Ok sm ->
           count (fst (CumulativeMean_update s x)) = count s + 1
           /\ exists o l,
                snd (CumulativeMean_update s x)
                = Ok (o, l, (total (fst (CumulativeMean_update s x))
                             / inject_Z (count (fst (CumulativeMean_update s x))))%Q)).
Proof.
  split.
  - intros history xs i s' r Hi.
    apply MeanQueue_run_inv in Hi as [Hinv Hr]; [| left; reflexivity].
    split; [assumption |].
    intros n t o l Hst. destruct Hinv as [Hinv | (t' & o' & l' & Hinv)];
      rewrite Hst in Hinv; [discriminate | injection Hinv as -> _ _ _; lia].
  - intros Hreach. apply reachable_count in Hreach as [Hc _].
    split; [lia |].
    destruct (column_sum x (column s)) as [sm | e] eqn:Hsum.
    + rewrite (CumulativeMean_update_sum s x sm Hsum) by lia. cbn.
      split; [discriminate |].
      intros sm' [= <-]. split; [reflexivity | eauto].
    + rewrite (CumulativeMean_update_raise s x e Hsum). cbn.
      split; [| discriminate].
      unfold column_sum, df_getitem in Hsum.
      destruct (df_columns x !! column s); cbn in Hsum; congruence.
Qed.

Lemma mean_division_never_by_zero_witness :
  let s := fst (CumulativeMean_update (CumulativeMean_init "passenger_count")
                  (trips 10 [1; 3]%Q)) in
  1 <= count s + 1
  /\ snd (CumulativeMean_update s (trips 20 [6]%Q)) <> Raise ZeroDivisionError.
Proof.
  intros s.
  destruct (proj2 (mean_division_never_by_zero "passenger_count" s (trips 20 [6]%Q)))
    as (Hdiv & Hres & _).
  - apply reach_update, reach_init.
  - split; assumption.
Defined.

Lemma q_sum_take_succ (sm : Q) (sums : list Q) (i : nat) :
  q_sum (take (S i) (sm :: sums)) = (sm + q_sum (take i sums))%Q.
Proof. reflexivity. Qed.

(** After [i + 1] more updates the stream has counted [i + 1] more
    batches and added their column sums to its total, and the mean it
    emits is the one over the other. *)
Lemma CumulativeMean_run_means xs : forall sums s,
  0 <= count s ->
  Forall2 (fun x sm => column_sum x (column s) = Ok sm) xs sums ->
  forall i, (i < length xs)%nat ->
    exists s' o l,
      CumulativeMean_run s xs !! i
      = Some (s', Ok (o, l, (total s' / inject_Z (count s'))%Q))
      /\ count s' = count s + Z.of_nat i + 1
      /\ (total s' == total s + q_sum (take (S i) sums))%Q.
Proof.
  induction xs as [| x xs IH]; intros sums s Hc Hall i Hi; [cbn in Hi; lia |].
  inversion Hall as [| ? sm ? sums' Hx Hxs]; subst.
  pose proof (CumulativeMean_update_sum s x sm Hx ltac:(lia)) as Hup.
  cbv zeta in Hup. cbn [CumulativeMean_run]. rewrite Hup. cbn [fst].
  destruct i as [| i]; cbn [lookup list_lookup].
  - exists {| column := column s; count := count s + 1;
              total := (total s + sm)%Q;
              oldest := Some (first_wins (oldest s) (index_min x)) |}.
    eexists _, _. split; [reflexivity |]. cbn [count total].
    split; [lia |].
    rewrite q_sum_take_succ. change (q_sum (take 0 sums')) with 0%Q. ring.
  - cbn [length] in Hi.
    set (s2 := {| column := column s; count := count s + 1;
                  total := (total s + sm)%Q;
                  oldest := Some (first_wins (oldest s) (index_min x)) |}).
    destruct (IH sums' s2) with (i := i) as (s' & o & l & Hrun & Hcount & Htot);
      [cbn; lia | exact Hxs | lia |].
    exists s', o, l. split; [exact Hrun |]. cbn [count total s2] in Hcount, Htot.
    split; [lia |].
    rewrite Htot, q_sum_take_succ. ring.
Qed.

(** C7.  After the [k]-th of [k >= 1] batches whose column sums are
    [s_1 .. s_k], a fresh cumulative mean stream emits the mean
    [(s_1 + ... + s_k) / k]; column sums 4, 6, 10 give the means 4, 5 and
    20/3. *)
Theorem cumulative_mean_of_sums (col : string) (batches : list DataFrame)
    (sums : list Q) (k : nat) :
  Forall2 (fun x sm => column_sum x col = Ok sm) batches sums ->
  (1 <= k <= length batches)%nat ->
  exists s o l m,
    CumulativeMean_run (CumulativeMean_init col) batches !! (k - 1)%nat
    = Some (s, Ok (o, l, m))
    /\ count s = Z.of_nat k
    /\ (m == q_sum (take k sums) / inject_Z (Z.of_nat k))%Q
    /\ (sums = [4; 6; 10]%Q ->
        (k = 1%nat -> m == 4)%Q /\ (k = 2%nat -> m == 5)%Q
        /\ (k = 3%nat -> m == 20 # 3)%Q).
Proof.
  intros Hall Hk.
  destruct (CumulativeMean_run_means batches sums (CumulativeMean_init col))
    with (i := (k - 1)%nat) as (s & o & l & Hrun & Hcount & Htot);
    [cbn; lia | exact Hall | lia |].
  cbn [count total CumulativeMean_init] in Hcount, Htot.
  replace (S (k - 1)) with k in Htot by lia.
  assert (Hck : count s = Z.of_nat k) by lia.
  assert (Hm : (total s / inject_Z (count s)
                == q_sum (take k sums) / inject_Z (Z.of_nat k))%Q).
  { rewrite Hck, Htot. apply Qdiv_comp; [ring | reflexivity]. }
  exists s, o, l, (total s / inject_Z (count s))%Q.
  split; [exact Hrun |]. split; [exact Hck |]. split; [exact Hm |].
  intros ->. repeat split; intros ->; rewrite Hm; reflexivity.
Qed.

Lemma cumulative_mean_of_sums_witness :
  exists s o l m,
    CumulativeMean_run (CumulativeMean_init "passenger_count")
      [trips 10 [1; 3]%Q; trips 20 [6]%Q; trips 30 [4; 6]%Q] !! 2%nat
    = Some (s, Ok (o, l, m))
    /\ count s = 3
    /\ (m == q_sum (take 3 [4; 6; 10]%Q) / inject_Z 3)%Q
    /\ ([4; 6; 10]%Q = [4; 6; 10]%Q ->
        (3%nat = 1%nat -> m == 4)%Q /\ (3%nat = 2%nat -> m == 5)%Q
        /\ (3%nat = 3%nat -> m == 20 # 3)%Q).
Proof.
  apply (cumulative_mean_of_sums "passenger_count"
           [trips 10 [1; 3]%Q; trips 20 [6]%Q; trips 30 [4; 6]%Q]
           [4; 6; 10]%Q 3).
  - repeat constructor.
  - cbn. lia.
Defined.

(** ** The earliest timestamp *)

(** What a call emits as [oldest] is what it leaves in the state. *)
Lemma CumulativeMean_update_oldest s x o l m :
  snd (CumulativeMean_update s x) = Ok (o, l, m) ->
  oldest (fst (CumulativeMean_update s x)) = Some o.
Proof.
  unfold CumulativeMean_update.
  destruct (column_sum x (column s)) as [sm | e]; cbn [fst snd]; [| discriminate].
  cbn [oldest total count].
  destruct (truediv _ _); cbn [rbind]; [| discriminate].
  intros [= <- _ _]. reflexivity.
Qed.

(** Once set, [oldest] is never assigned again, whether the call returns
    or raises. *)
Lemma CumulativeMean_update_keeps_oldest s x (t : pyts) :
  oldest s = Some t -> oldest (fst (CumulativeMean_update s x)) = Some t.
Proof.
  intros Ho. unfold CumulativeMean_update. rewrite Ho. cbn [first_wins].
  destruct (column_sum x (column s)); reflexivity.
Qed.

Lemma CumulativeMean_run_keeps_oldest xs : forall s (t : pyts),
  oldest s = Some t ->
  forall i s' r, CumulativeMean_run s xs !! i = Some (s', r) ->
    oldest s' = Some t.
Proof.
  induction xs as [| x xs IH]; intros s t Ho i s' r Hi; [discriminate |].
  pose proof (CumulativeMean_update_keeps_oldest s x t Ho) as Ho'.
  cbn [CumulativeMean_run] in Hi.
  destruct i as [| i]; cbn [lookup list_lookup] in Hi.
  - injection Hi as Hi. rewrite Hi in Ho'. exact Ho'.
  - eapply IH; eassumption.
Qed.

(** The outcomes after the [i]-th one are those of a run that starts in
    the state the [i]-th update left. *)
Lemma CumulativeMean_run_after xs : forall s i si ri d,
  CumulativeMean_run s xs !! i = Some (si, ri) ->
  CumulativeMean_run s xs !! (i + 1 + d)%nat
  = CumulativeMean_run si (drop (S i) xs) !! d.
Proof.
  induction xs as [| x xs IH]; intros s i si ri d Hi; [discriminate |].
  cbn [CumulativeMean_run] in *.
  destruct i as [| i]; cbn [lookup list_lookup Nat.add] in *.
  - injection Hi as Hi. rewrite Hi. cbn [fst drop]. reflexivity.
  - apply (IH _ _ _ _ d) in Hi. exact Hi.
Qed.

Lemma CumulativeMean_run_state xs : forall s i si o l m,
  CumulativeMean_run s xs !! i = Some (si, Ok (o, l, m)) -> oldest si = Some o.
Proof.
  induction xs as [| x xs IH]; intros s i si o l m Hi; [discriminate |].
  cbn [CumulativeMean_run] in Hi.
  destruct i as [| i]; cbn [lookup list_lookup] in Hi.
  - injection Hi as Hi.
    pose proof (CumulativeMean_update_oldest s x o l m) as Ho.
    rewrite Hi in Ho. apply Ho. reflexivity.
  - eapply IH; eassumption.
Qed.

(** C5.  Across the results a cumulative mean stream emits, [oldest] never
    moves forward in time: once an emission carries a timestamp [t], every
    later emission carries that same [t], so one no later than [t].  The
    accumulator of the streamz pipeline keeps a set [oldest] in the same
    way. *)
Theorem oldest_never_moves_forward (s : CumulativeMean) (batches : list DataFrame)
    (i j : nat) (t : Timestamp) (si sj : CumulativeMean) (li oj lj : pyts)
    (mi mj : Q) :
  (i < j)%nat ->
  CumulativeMean_run s batches !! i = Some (si, Ok (Some t, li, mi)) ->
  CumulativeMean_run s batches !! j = Some (sj, Ok (oj, lj, mj)) ->
  oj = Some t
  /\ (exists t', oj = Some t' /\ t' <= t)
  /\ (forall col n tot df r,
        accumulator col (Tuple3 n tot (Some (Some t))) df = Ok r ->
        exists n' tot' l, r = Tuple4 n' tot' (Some t) l).
Proof.
  intros Hij Hi Hj.
  assert (Hoj : oj = Some t).
  { pose proof (CumulativeMean_run_state _ _ _ _ _ _ _ Hi) as Hsi.
    pose proof (CumulativeMean_run_state _ _ _ _ _ _ _ Hj) as Hsj.
    assert (Hd : exists d, j = (i + 1 + d)%nat) by (exists (j - i - 1)%nat; lia).
    destruct Hd as [d ->].
    assert (Hj' : CumulativeMean_run si (drop (S i) batches) !! d
                  = Some (sj, Ok (oj, lj, mj))).
    { etransitivity; [| exact Hj].
      symmetry. exact (CumulativeMean_run_after batches s i si _ d Hi). }
    apply (CumulativeMean_run_keeps_oldest _ _ (Some t) Hsi) in Hj'. congruence. }
  split; [exact Hoj |]. split.
  - exists t. split; [exact Hoj | lia].
  - intros col n tot df r. unfold accumulator. cbn [first_wins].
    destruct (column_sum df col); cbn [rbind]; [| discriminate].
    intros [= <-]. eauto.
Qed.

Lemma oldest_never_moves_forward_witness :
  let batches := [trips 10 [1; 3]%Q; pd_DataFrame; trips 30 [4; 6]%Q] in
  let run := CumulativeMean_run (CumulativeMean_init "passenger_count") batches in
  let s1 := {| column := "passenger_count"; count := 1; total := 4%Q;
               oldest := Some (Some 10) |} in
  let s3 := {| column := "passenger_count"; count := 2; total := 14%Q;
               oldest := Some (Some 10) |} in
  run !! 0%nat = Some (s1, Ok (Some 10, Some 11, 4%Q))
  /\ run !! 1%nat = Some (s1, Raise (KeyError "passenger_count"))
  /\ run !! 2%nat = Some (s3, Ok (Some 10, Some 31, (14 # 2)%Q))
  /\ Some 10 = Some 10
  /\ (exists t', Some 10 = Some t' /\ t' <= 10)
  /\ (forall col n tot df r,
        accumulator col (Tuple3 n tot (Some (Some 10))) df = Ok r ->
        exists n' tot' l, r = Tuple4 n' tot' (Some 10) l).
Proof.
  intros batches run s1 s3.
  split; [reflexivity |]. split; [reflexivity |]. split; [reflexivity |].
  apply (oldest_never_moves_forward (CumulativeMean_init "passenger_count")
           batches 0 2 10 s1 s3 (Some 11) (Some 10) (Some 31) 4%Q (14 # 2)%Q).
  - lia.
  - reflexivity.
  - reflexivity.
Defined.

(** ** Batches without rows *)

Lemma inject_Z_nonzero (z : Z) : z <> 0 -> ~ (inject_Z z == 0)%Q.
Proof.
  intros Hz H0. apply Hz. apply inject_Z_injective. exact H0.
Qed.

(** A batch that has no rows but still has the column: the sum is 0, the
    call returns, the count goes up by one, the total keeps its value,
    and the mean is the previous one scaled by the ratio of the counts. *)
Lemma cumulative_mean_no_rows s x :
  df_columns x !! column s = Some [] ->
  1 <= count s ->
  column_sum x (column s) = Ok 0%Q
  /\ exists o l m,
       CumulativeMean_update s x
       = ({| column := column s; count := count s + 1;
             total := (total s + 0)%Q; oldest := Some o |}, Ok (o, l, m))
       /\ (total s + 0 == total s)%Q
       /\ (m == (total s / inject_Z (count s))
                * (inject_Z (count s) / inject_Z (count s + 1)))%Q.
Proof.
  intros Hcol Hc.
  assert (Hsum : column_sum x (column s) = Ok 0%Q).
  { unfold column_sum, df_getitem. rewrite Hcol. reflexivity. }
  split; [exact Hsum |].
  pose proof (CumulativeMean_update_sum s x 0%Q Hsum ltac:(lia)) as Hup.
  cbv zeta in Hup. eexists _, _, _. split; [exact Hup |].
  split; [ring |].
  field. split; apply inject_Z_nonzero; lia.
Qed.

(** C4, at the batch the stream really receives for a time bucket
    without trips.  [get_group] answers a missing group with
    [pd.DataFrame()], which has no columns, and reading the column from
    it raises [KeyError]: [update] does not return, [count] and [total]
    are left as they were and nothing is emitted.  The accumulator of the
    streamz pipeline raises in the same way. *)
Theorem cumulative_mean_raises_on_empty_frame (s : CumulativeMean) (key : Z)
    (col : string) (a_n : Z) (a_total : Q) (a_oldest : option pyts) :
  get_group ∅ key = pd_DataFrame
  /\ index_min pd_DataFrame = None /\ index_max pd_DataFrame = None
  /\ column_sum pd_DataFrame (column s) = Raise (KeyError (column s))
  /\ snd (CumulativeMean_update s (get_group ∅ key)) = Raise (KeyError (column s))
  /\ count (fst (CumulativeMean_update s (get_group ∅ key))) = count s
  /\ total (fst (CumulativeMean_update s (get_group ∅ key))) = total s
  /\ accumulator col (Tuple3 a_n a_total a_oldest) (get_group ∅ key)
     = Raise (KeyError col).
Proof.
  unfold get_group. rewrite lookup_empty.
  split; [reflexivity |]. repeat (split; [reflexivity |]). reflexivity.
Qed.

(** ** The streamz pipeline after its first result *)

Lemma accumulator_tuple4 col n t o l df :
  accumulator col (Tuple4 n t o l) df = Raise ValueError.
Proof. reflexivity. Qed.

Lemma accumulator_tuple3 col n t o df r :
  accumulator col (Tuple3 n t o) df = Ok r ->
  exists sm o',
    column_sum df col = Ok sm
    /\ r = Tuple4 (n + 1) (t + sm)%Q o' (index_max df).
Proof.
  unfold accumulator. destruct (column_sum df col) as [sm | e]; cbn [rbind];
    [| discriminate].
  intros [= <-]. eauto.
Qed.

(** A push that returns leaves a 4-tuple as the node's state. *)
Lemma MeanQueue_push_ok col history s x e :
  snd (MeanQueue_push col history s x) = Ok e ->
  is_tuple4 (mq_state (fst (MeanQueue_push col history s x))) = true.
Proof.
  unfold MeanQueue_push.
  destruct (accumulator col (mq_state s) x) as [value |] eqn:Hacc;
    cbn [fst snd mq_state]; [| discriminate].
  intros _. destruct (mq_state s); [| discriminate].
  apply accumulator_tuple3 in Hacc as (sm & o' & _ & ->). reflexivity.
Qed.

(** With a 4-tuple as its state the node raises on every batch. *)
Lemma MeanQueue_run_stuck col history xs : forall s,
  is_tuple4 (mq_state s) = true ->
  forall i s' r, MeanQueue_run col history s xs !! i = Some (s', r) ->
    s' = s /\ r = Raise ValueError.
Proof.
  induction xs as [| x xs IH]; intros s Hs i s' r Hi; [discriminate |].
  assert (Hpush : MeanQueue_push col history s x = (s, Raise ValueError)).
  { unfold MeanQueue_push. destruct (mq_state s); [discriminate | reflexivity]. }
  cbn [MeanQueue_run] in Hi. rewrite Hpush in Hi. cbn [fst] in Hi.
  destruct i as [| i]; cbn [lookup list_lookup] in Hi.
  - injection Hi as <- <-. auto.
  - eapply IH; eassumption.
Qed.

Lemma MeanQueue_run_stuck_successes col history xs s :
  is_tuple4 (mq_state s) = true ->
  successes (MeanQueue_run col history s xs) = 0%nat.
Proof.
  revert s. unfold successes.
  induction xs as [| x xs IH]; intros s Hs; [reflexivity |].
  assert (Hpush : MeanQueue_push col history s x = (s, Raise ValueError)).
  { unfold MeanQueue_push. destruct (mq_state s); [discriminate | reflexivity]. }
  cbn [MeanQueue_run]. rewrite Hpush. cbn [fst List.filter snd is_ok].
  apply IH. assumption.
Qed.

Lemma MeanQueue_run_after col history xs : forall s i si ri d,
  MeanQueue_run col history s xs !! i = Some (si, ri) ->
  MeanQueue_run col history s xs !! (i + 1 + d)%nat
  = MeanQueue_run col history si (drop (S i) xs) !! d.
Proof.
  induction xs as [| x xs IH]; intros s i si ri d Hi; [discriminate |].
  cbn [MeanQueue_run] in *.
  destruct i as [| i]; cbn [lookup list_lookup Nat.add] in *.
  - injection Hi as Hi. rewrite Hi. cbn [fst drop]. reflexivity.
  - apply (IH _ _ _ _ d) in Hi. exact Hi.
Qed.

Lemma MeanQueue_run_ok_state col history xs : forall s i si e,
  MeanQueue_run col history s xs !! i = Some (si, Ok e) ->
  is_tuple4 (mq_state si) = true.
Proof.
  induction xs as [| x xs IH]; intros s i si e Hi; [discriminate |].
  cbn [MeanQueue_run] in Hi.
  destruct i as [| i]; cbn [lookup list_lookup] in Hi.
  - injection Hi as Hi.
    pose proof (MeanQueue_push_ok col history s x e) as Hok.
    rewrite Hi in Hok. apply Hok. reflexivity.
  - eapply IH; eassumption.
Qed.

Lemma MeanQueue_run_successes col history xs : forall s,
  (successes (MeanQueue_run col history s xs) <= 1)%nat.
Proof.
  induction xs as [| x xs IH]; intros s; [cbn; lia |].
  unfold successes in *. cbn [MeanQueue_run List.filter].
  destruct (snd (MeanQueue_push col history s x)) as [e | e] eqn:Hr; cbn [is_ok].
  - pose proof (MeanQueue_push_ok col history s x e Hr) as Hst.
    pose proof (MeanQueue_run_stuck_successes col history xs _ Hst) as H0.
    unfold successes in H0. cbn [length]. rewrite H0. lia.
  - apply IH.
Qed.



(** ** The reducer on a batch without rows *)

Lemma map_const_replicate {A B} (c : B) (l : list A) :
  map (fun _ => c) l = replicate (length l) c.
Proof. induction l as [| a l IH]; cbn; [reflexivity | now rewrite IH]. Qed.

(** A batch that has no rows but still has the configured columns is
    reduced to a raster that holds the operator's identity in every bin,
    with both timestamps missing. *)
Lemma reducer_identity_no_rows cvs x y agg df :
  df_index df = [] ->
  df_columns df !! x = Some [] ->
  df_columns df !! y = Some [] ->
  (forall c, reduction_column agg = Some c -> df_columns df !! c = Some []) ->
  aggregate_df (points cvs x y agg) df
  = Ok (mkPartial None None (replicate (nbins cvs) (identity agg))).
Proof.
  intros Hidx Hx Hy Hc.
  unfold aggregate_df, index_min, index_max, points, configured, values_of.
  rewrite Hidx, Hx, Hy. cbn [rbind length list_min list_max].
  destruct (reduction_column agg) as [c |] eqn:Hagg.
  - unfold configured. rewrite (Hc c eq_refl).
    cbn [rbind zip zip_with omap list_omap reduce_cell].
    rewrite map_const_replicate, length_seq. reflexivity.
  - cbn [replicate rbind zip zip_with omap list_omap reduce_cell].
    rewrite map_const_replicate, length_seq. reflexivity.
Qed.

(** C10, at the batch the stream really receives for a time bucket
    without trips.  [get_group] answers a missing group with
    [pd.DataFrame()], which has no rows and no columns either: both
    timestamps are missing, and the reducer raises because the
    coordinates it is configured with are absent. *)
Theorem reducer_raises_on_empty_frame (cvs : Canvas) (x y : string)
    (agg : reduction) (key : Z) :
  get_group ∅ key = pd_DataFrame
  /\ index_min (get_group ∅ key) = None
  /\ index_max (get_group ∅ key) = None
  /\ aggregate_df (points cvs x y agg) (get_group ∅ key) = Raise ReductionError.
Proof.
  unfold get_group. rewrite lookup_empty. repeat (split; [reflexivity |]).
  reflexivity.
Qed.

(** * Further properties of the notebook's code *)

(** ** Queues and windows at any fill *)

(** X1.  A [deque(maxlen=...)] that is within its bound and is appended
    any number of items holds the last [maxlen] of all it was given, in
    order: everything while it is filling, nothing at all when [maxlen]
    is 0, and it never passes its bound. *)
Theorem deque_append_run_keeps_last {A : Type} (maxlen : nat) (q items : list A) :
  (length q <= maxlen)%nat ->
  deque_extend maxlen q items
  = drop (length q + length items - maxlen) (q ++ items)
  /\ length (deque_extend maxlen q items)
     = Nat.min (length q + length items) maxlen
  /\ ((length q + length items <= maxlen)%nat ->
      deque_extend maxlen q items = q ++ items)
  /\ (maxlen = 0%nat -> deque_extend maxlen q items = []).
Proof.
  intros Hle.
  pose proof (deque_extend_drop maxlen items q Hle) as Heq.
  split; [exact Heq |]. split; [| split].
  - rewrite Heq, length_drop, length_app. lia.
  - intros Hfit. rewrite Heq.
    replace (length q + length items - maxlen)%nat with 0%nat by lia.
    reflexivity.
  - intros ->. rewrite Heq. apply drop_ge. rewrite length_app. lia.
Qed.

Lemma deque_append_run_keeps_last_witness :
  deque_extend 3 [1; 2] [3; 4; 5] = drop (2 + 3 - 3) ([1; 2] ++ [3; 4; 5])
  /\ length (deque_extend 3 [1; 2] [3; 4; 5]) = Nat.min (2 + 3) 3
  /\ ((2 + 3 <= 3)%nat -> deque_extend 3 [1; 2] [3; 4; 5] = [1; 2] ++ [3; 4; 5])
  /\ (3%nat = 0%nat -> deque_extend 3 [1; 2] [3; 4; 5] = []).
Proof.
  apply (@deque_append_run_keeps_last Z 3 [1; 2] [3; 4; 5]). cbn [length]. lia.
Defined.

Section WindowContents.
Context {Payload : Type}.
Variable padd : Payload -> Payload -> Payload.
Variable points : DataFrame -> result Payload.
Variable str : pyts -> string.

Lemma partials_cons_ok x xs p :
  aggregate_df points x = Ok p ->
  partials points (x :: xs) = p :: partials points xs.
Proof.
  intros Hp. unfold partials, emitted. cbn [map omap list_omap].
  rewrite Hp. reflexivity.
Qed.

Lemma partials_cons_raise x xs e :
  aggregate_df points x = Raise e ->
  partials points (x :: xs) = partials points xs.
Proof.
  intros Hp. unfold partials, emitted. cbn [map omap list_omap].
  rewrite Hp. reflexivity.
Qed.

(** The cache after some updates is the old cache appended the partial
    aggregates of the batches that were reduced. *)
Lemma SlidingWindow_run_cache xs : forall s i s' r,
  SlidingWindow_run padd points str s xs !! i = Some (s', r) ->
  sw_n s' = sw_n s
  /\ cache s' = deque_extend (sw_n s) (cache s) (partials points (take (S i) xs)).
Proof.
  induction xs as [| x xs IH]; intros s i s' r Hi; [discriminate |].
  cbn [SlidingWindow_run] in Hi.
  assert (Hstep : sw_n (fst (SlidingWindow_update padd points str s x)) = sw_n s
                  /\ cache (fst (SlidingWindow_update padd points str s x))
                     = deque_extend (sw_n s) (cache s) (partials points [x])).
  { unfold SlidingWindow_update.
    destruct (aggregate_df points x) as [p | e] eqn:Hp.
    - rewrite (partials_cons_ok x [] p Hp). split; reflexivity.
    - rewrite (partials_cons_raise x [] e Hp). split; reflexivity. }
  destruct Hstep as [Hn Hc].
  destruct i as [| i]; cbn [lookup list_lookup] in Hi.
  - injection Hi as Hi. rewrite Hi in Hn, Hc. cbn [fst] in Hn, Hc.
    change (take 1 (x :: xs)) with [x]. auto.
  - apply IH in Hi as [Hn' Hc']. rewrite Hn in Hn', Hc'.
    split; [exact Hn' |]. rewrite Hc', Hc.
    change (take (S (S i)) (x :: xs)) with (x :: take (S i) xs).
    unfold deque_extend, partials, emitted. cbn [map omap list_omap].
    destruct (aggregate_df points x); reflexivity.
Qed.

End WindowContents.

(** X2.  The window a [SlidingWindowImageAggregate] combines is made of
    the partial aggregates of the last [n] batches that were reduced, in
    arrival order, oldest first; batches the reducer raised on are not in
    it. *)
Theorem sliding_window_holds_last_reduced {Payload : Type}
    (padd : Payload -> Payload -> Payload)
    (points : DataFrame -> result Payload) (str : pyts -> string)
    (n : nat) (batches : list DataFrame) (i : nat)
    (s : SlidingWindow Payload) (r : result (Image Payload)) :
  SlidingWindow_run padd points str (SlidingWindow_init n) batches !! i
  = Some (s, r) ->
  let reduced_so_far := partials points (take (S i) batches) in
  cache s = drop (length reduced_so_far - n) reduced_so_far.
Proof.
  intros Hi. cbv zeta.
  apply SlidingWindow_run_cache in Hi as [_ Hc].
  rewrite Hc. cbn [SlidingWindow_init cache sw_n].
  rewrite deque_extend_drop by (cbn; lia). reflexivity.
Qed.

Lemma sliding_window_holds_last_reduced_witness :
  let batches := [day 10 5; pd_DataFrame; day 20 7; day 30 1] in
  let s := {| sw_n := 2;
              cache := [mkPartial (Some 20) (Some 21) [Some 2%Q; Some 7%Q];
                        mkPartial (Some 30) (Some 31) [Some 2%Q; Some 1%Q]] |} in
  cache s
  = drop (length (partials demo_points (take 4 batches)) - 2)
      (partials demo_points (take 4 batches)).
Proof.
  intros batches s.
  apply (sliding_window_holds_last_reduced raster_add demo_points demo_str 2
           batches 3 s
           (Ok {| img_name := "20 - 31"; img_data := [Some 4%Q; Some 8%Q] |})).
  reflexivity.
Defined.

(** X3.  With [n = 0] the cache is a [deque(maxlen=0)] and stays empty:
    every update whose batch is reduced hands the combiner an empty
    window and raises [IndexError], so such a stream never emits. *)
Theorem sliding_window_of_size_zero_never_emits {Payload : Type}
    (padd : Payload -> Payload -> Payload)
    (points : DataFrame -> result Payload) (str : pyts -> string)
    (batches : list DataFrame) (i : nat) (x : DataFrame)
    (s : SlidingWindow Payload) (r : result (Image Payload)) :
  batches !! i = Some x ->
  SlidingWindow_run padd points str (SlidingWindow_init 0) batches !! i
  = Some (s, r) ->
  cache s = []
  /\ r = match points x with
         | Ok _ => Raise IndexError
         | Raise e => Raise e
         end.
Proof.
  intros Hx Hi. split.
  - pose proof (SlidingWindow_run_cache padd points str batches _ _ _ _ Hi)
      as [_ Hc].
    cbn [SlidingWindow_init cache sw_n] in Hc.
    rewrite Hc, deque_extend_drop by (cbn; lia). apply drop_ge. cbn. lia.
  - assert (Hgen : forall xs (s0 : SlidingWindow Payload) j s' r',
              sw_n s0 = 0%nat -> cache s0 = [] ->
              xs !! j = Some x ->
              SlidingWindow_run padd points str s0 xs !! j = Some (s', r') ->
              r' = match points x with
                   | Ok _ => Raise IndexError
                   | Raise e => Raise e
                   end).
    { induction xs as [| x0 xs IH]; intros s0 j s' r' Hn0 Hc0 Hj Hrun;
        [discriminate |].
      cbn [SlidingWindow_run] in Hrun.
      assert (Hup : SlidingWindow_update padd points str s0 x0
                    = (s0, match points x0 with
                           | Ok _ => Raise IndexError
                           | Raise e => Raise e
                           end)).
      { unfold SlidingWindow_update, aggregate_df.
        destruct (points x0) as [a | e]; cbn [rbind]; [| reflexivity].
        destruct s0 as [n0 c0]. cbn [sw_n cache] in Hn0, Hc0 |- *. subst.
        reflexivity. }
      rewrite Hup in Hrun. cbn [fst] in Hrun.
      destruct j as [| j]; cbn [lookup list_lookup] in Hrun, Hj.
      - injection Hj as ->. injection Hrun as _ <-. reflexivity.
      - eapply IH; eassumption. }
    eapply Hgen; [| | exact Hx | exact Hi]; reflexivity.
Qed.

Lemma sliding_window_of_size_zero_never_emits_witness :
  cache (SlidingWindow_init (Payload := Raster) 0) = []
  /\ Raise IndexError
     = match demo_points (day 20 7) with
       | Ok _ => Raise (A := Image Raster) IndexError
       | Raise e => Raise e
       end.
Proof.
  apply (sliding_window_of_size_zero_never_emits raster_add demo_points demo_str
           [day 10 5; day 20 7] 1 (day 20 7)); reflexivity.
Defined.

(** ** How the combiner composes *)

Section CombinerFacts.
Context {Payload : Type}.
Variable padd : Payload -> Payload -> Payload.
Variable str : pyts -> string.

Lemma py_sum_snoc (xs : list Payload) (x : Payload) :
  py_sum padd (xs ++ [x])
  = Some (match py_sum padd xs with
          | None => x
          | Some t => padd t x
          end).
Proof. unfold py_sum. rewrite foldl_app. reflexivity. Qed.

Lemma aggregate_images_data (w : list (PartialAggregate Payload)) img :
  aggregate_images padd str w = Ok img ->
  py_sum padd (map payload w) = Some (img_data img)
  /\ exists a b,
       range_start w = Ok a /\ range_end w = Ok b
       /\ img_name img = format_name (str a) (str b).
Proof.
  unfold aggregate_images.
  destruct (range_start w) as [a |]; cbn [rbind]; [| discriminate].
  destruct (range_end w) as [b |]; cbn [rbind]; [| discriminate].
  destruct (py_sum padd (map payload w)) as [t |]; cbn [shade]; [| discriminate].
  intros [= <-]. cbn. eauto 6.
Qed.

(** Reordering what is summed does not change the sum when [+] is
    associative and commutative. *)
Lemma py_sum_permutation :
  (forall a b c, padd (padd a b) c = padd a (padd b c)) ->
  (forall a b, padd a b = padd b a) ->
  forall xs ys, Permutation xs ys -> py_sum padd xs = py_sum padd ys.
Proof.
  intros Hassoc Hcomm xs ys Hperm. unfold py_sum.
  generalize (@None Payload).
  induction Hperm as [| x xs ys _ IH | x y xs | xs ys zs _ IH1 _ IH2]; intros acc.
  - reflexivity.
  - cbn [foldl]. apply IH.
  - cbn [foldl]. f_equal. f_equal. destruct acc as [a |].
    + rewrite !Hassoc. f_equal. apply Hcomm.
    + apply Hcomm.
  - rewrite IH1. apply IH2.
Qed.

End CombinerFacts.

(** X6.  Appending one more partial aggregate to a window that combines
    to an image gives the image whose raster is the old raster plus the
    new payload and whose name keeps the old start of range and ends at
    the new element's maximum. *)
Theorem aggregate_images_append {Payload : Type}
    (padd : Payload -> Payload -> Payload) (str : pyts -> string)
    (w : list (PartialAggregate Payload)) (p : PartialAggregate Payload)
    (img : Image Payload) :
  aggregate_images padd str w = Ok img ->
  exists a,
    range_start w = Ok a
    /\ aggregate_images padd str (w ++ [p])
       = Ok {| img_name := format_name (str a) (str (maxTimestamp p));
               img_data := padd (img_data img) (payload p) |}.
Proof.
  intros Himg.
  destruct (aggregate_images_data padd str w img Himg)
    as (Hsum & a & b & Ha & _ & _).
  exists a. split; [exact Ha |].
  unfold aggregate_images.
  assert (Hstart : range_start (w ++ [p]) = Ok a).
  { destruct w as [| q w]; [discriminate |].
    rewrite range_start_cons in Ha. cbn [app]. rewrite range_start_cons. exact Ha. }
  rewrite Hstart, range_end_snoc. cbn [rbind].
  rewrite map_app. cbn [map]. rewrite py_sum_snoc, Hsum. reflexivity.
Qed.

Lemma aggregate_images_append_witness :
  exists a,
    range_start [mkPartial (Some 10) (Some 11) [Some 2%Q; Some 5%Q]] = Ok a
    /\ aggregate_images raster_add demo_str
         ([mkPartial (Some 10) (Some 11) [Some 2%Q; Some 5%Q]]
          ++ [mkPartial (Some 20) (Some 21) [Some 2%Q; Some 7%Q]])
       = Ok {| img_name := format_name (demo_str a) (demo_str (Some 21));
               img_data := raster_add [Some 2%Q; Some 5%Q] [Some 2%Q; Some 7%Q] |}.
Proof.
  apply (aggregate_images_append raster_add demo_str
           [mkPartial (Some 10) (Some 11) [Some 2%Q; Some 5%Q]]
           (mkPartial (Some 20) (Some 21) [Some 2%Q; Some 7%Q])
           {| img_name := "10 - 11"; img_data := [Some 2%Q; Some 5%Q] |}).
  reflexivity.
Defined.

(** X7.  When the payload's [+] is associative and commutative, the
    raster of the combined image does not depend on the order of the
    window's elements: two windows with the same elements combine to
    images with the same raster (their names may differ). *)
Theorem aggregate_images_data_order_free {Payload : Type}
    (padd : Payload -> Payload -> Payload) (str : pyts -> string)
    (w w' : list (PartialAggregate Payload)) (img img' : Image Payload) :
  (forall a b c, padd (padd a b) c = padd a (padd b c)) ->
  (forall a b, padd a b = padd b a) ->
  Permutation w w' ->
  aggregate_images padd str w = Ok img ->
  aggregate_images padd str w' = Ok img' ->
  img_data img = img_data img'.
Proof.
  intros Hassoc Hcomm Hperm Himg Himg'.
  apply aggregate_images_data in Himg as [Hsum _].
  apply aggregate_images_data in Himg' as [Hsum' _].
  rewrite (py_sum_permutation padd Hassoc Hcomm (map payload w) (map payload w'))
    in Hsum by (apply Permutation_map; exact Hperm).
  congruence.
Qed.

Lemma aggregate_images_data_order_free_witness :
  img_data {| img_name := "70 - 11"%string; img_data := 12 |}
  = img_data {| img_name := "10 - 71"%string; img_data := 12 |}.
Proof.
  apply (aggregate_images_data_order_free Z.add demo_str
           [mkPartial (Some 70) (Some 71) 5; mkPartial (Some 10) (Some 11) 7]
           [mkPartial (Some 10) (Some 11) 7; mkPartial (Some 70) (Some 71) 5]).
  - intros a b c. lia.
  - intros a b. lia.
  - apply perm_swap.
  - reflexivity.
  - reflexivity.
Defined.

(** ** What the cumulative mean has taken in *)

Lemma CumulativeMean_update_oldest_state s x :
  oldest (fst (CumulativeMean_update s x))
  = Some (first_wins (oldest s) (index_min x)).
Proof.
  unfold CumulativeMean_update.
  destruct (column_sum x (column s)); reflexivity.
Qed.

(** After the first of some updates [oldest] holds what that update
    left, whatever follows. *)
Lemma CumulativeMean_run_oldest x0 xs s i s' r :
  CumulativeMean_run s (x0 :: xs) !! i = Some (s', r) ->
  oldest s' = Some (first_wins (oldest s) (index_min x0)).
Proof.
  intros Hi. pose proof (CumulativeMean_update_oldest_state s x0) as Hstep.
  cbn [CumulativeMean_run] in Hi.
  destruct i as [| i]; cbn [lookup list_lookup] in Hi.
  - injection Hi as Hi. rewrite Hi in Hstep. exact Hstep.
  - eapply CumulativeMean_run_keeps_oldest; eassumption.
Qed.

Lemma CumulativeMean_run_latest xs : forall s i x s' o l m,
  xs !! i = Some x ->
  CumulativeMean_run s xs !! i = Some (s', Ok (o, l, m)) ->
  l = index_max x.
Proof.
  induction xs as [| x0 xs IH]; intros s i x s' o l m Hx Hi; [discriminate |].
  cbn [CumulativeMean_run] in Hi.
  destruct i as [| i]; cbn [lookup list_lookup] in Hi, Hx.
  - injection Hx as ->. injection Hi as Hi.
    apply (f_equal snd) in Hi. cbn [snd] in Hi. revert Hi.
    unfold CumulativeMean_update.
    destruct (column_sum x (column s)); cbn [snd]; [| discriminate].
    destruct (truediv _ _); cbn [rbind]; [| discriminate].
    intros [= _ <- _]. reflexivity.
  - eapply IH; eassumption.
Qed.

(** X8.  What a fresh cumulative mean stream reports as [oldest] is
    the index minimum of the very first batch pushed to it, whatever is
    pushed afterwards: the missing value (nan/NaT) when that batch had no
    rows, and also when [update] raised on that batch and did not count
    it, because [self.oldest] is assigned before the column is read.
    [latest] is the index maximum of the batch just pushed. *)
Theorem cumulative_mean_oldest_is_first_batch (col : string)
    (batches : list DataFrame) (i : nat) (x0 x : DataFrame)
    (s : CumulativeMean) (r : result Emission) :
  batches !! 0%nat = Some x0 ->
  batches !! i = Some x ->
  CumulativeMean_run (CumulativeMean_init col) batches !! i = Some (s, r) ->
  oldest s = Some (index_min x0)
  /\ forall o l m,
       r = Ok (o, l, m) -> o = index_min x0 /\ l = index_max x.
Proof.
  intros H0 Hx Hi.
  destruct batches as [| b batches]; [discriminate |].
  cbn [lookup list_lookup] in H0. injection H0 as ->.
  pose proof (CumulativeMean_run_oldest x0 batches _ _ _ _ Hi) as Ho.
  cbn [CumulativeMean_init oldest first_wins] in Ho.
  split; [exact Ho |].
  intros o l m ->. split.
  - pose proof (CumulativeMean_run_state _ _ _ _ _ _ _ Hi) as Hs. congruence.
  - eapply CumulativeMean_run_latest; eassumption.
Qed.

Lemma cumulative_mean_oldest_is_first_batch_witness :
  let rejected := {| df_index := [5; 6]; df_columns := ∅ |} in
  let batches := [pd_DataFrame; rejected; trips 10 [1; 3]%Q] in
  let s := {| column := "passenger_count"; count := 1; total := 4%Q;
              oldest := Some None |} in
  oldest s = Some (index_min pd_DataFrame)
  /\ forall o l m,
       Ok (None, Some 11, 4%Q) = Ok (o, l, m) ->
       o = index_min pd_DataFrame /\ l = index_max (trips 10 [1; 3]%Q).
Proof.
  intros rejected batches s.
  apply (cumulative_mean_oldest_is_first_batch "passenger_count" batches 2
           pd_DataFrame (trips 10 [1; 3]%Q) s (Ok (None, Some 11, 4%Q)));
    reflexivity.
Defined.

Lemma accepted_sums_cons col x xs :
  accepted_sums col (x :: xs)
  = match column_sum x col with
    | Ok sm => sm :: accepted_sums col xs
    | Raise _ => accepted_sums col xs
    end.
Proof.
  unfold accepted_sums, emitted. cbn [map omap list_omap].
  destruct (column_sum x col); reflexivity.
Qed.

Lemma CumulativeMean_update_accepts s x :
  count (fst (CumulativeMean_update s x))
  = count s + Z.of_nat (length (accepted_sums (column s) [x]))
  /\ (total (fst (CumulativeMean_update s x))
      == total s + q_sum (accepted_sums (column s) [x]))%Q.
Proof.
  rewrite accepted_sums_cons. unfold CumulativeMean_update.
  destruct (column_sum x (column s)) as [sm | e]; cbn; split; try lia; ring.
Qed.

Lemma CumulativeMean_run_accepts xs : forall s i s' r,
  CumulativeMean_run s xs !! i = Some (s', r) ->
  count s' = count s + Z.of_nat (length (accepted_sums (column s) (take (S i) xs)))
  /\ (total s' == total s + q_sum (accepted_sums (column s) (take (S i) xs)))%Q.
Proof.
  induction xs as [| x xs IH]; intros s i s' r Hi; [discriminate |].
  destruct (CumulativeMean_update_accepts s x) as [Hc Ht].
  pose proof (CumulativeMean_update_column s x) as Hcol.
  rewrite accepted_sums_cons in Hc, Ht.
  cbn [CumulativeMean_run] in Hi.
  destruct i as [| i]; cbn [lookup list_lookup] in Hi.
  - injection Hi as Hi. rewrite Hi in Hc, Ht. cbn [fst] in Hc, Ht.
    change (take 1 (x :: xs)) with [x]. rewrite accepted_sums_cons. auto.
  - apply IH in Hi as [Hc' Ht']. rewrite Hcol in Hc', Ht'.
    change (take (S (S i)) (x :: xs)) with (x :: take (S i) xs).
    rewrite accepted_sums_cons.
    change (accepted_sums (column s) []) with (@nil Q) in Hc, Ht.
    destruct (column_sum x (column s)) as [sm | e];
      unfold q_sum in *; cbn [length foldr] in *.
    + split; [lia |]. rewrite Ht', Ht. ring.
    + split; [lia |]. rewrite Ht', Ht. ring.
Qed.

Lemma CumulativeMean_run_mean xs : forall s i s' o l m,
  0 <= count s ->
  CumulativeMean_run s xs !! i = Some (s', Ok (o, l, m)) ->
  m = (total s' / inject_Z (count s'))%Q.
Proof.
  induction xs as [| x xs IH]; intros s i s' o l m Hc Hi; [discriminate |].
  cbn [CumulativeMean_run] in Hi.
  destruct i as [| i]; cbn [lookup list_lookup] in Hi.
  - injection Hi as Hi. revert Hi. unfold CumulativeMean_update.
    destruct (column_sum x (column s)) as [sm | e]; [| discriminate].
    cbn [total count oldest]. rewrite truediv_nonzero by lia. cbn [rbind].
    intros [= <- _ _ <-]. reflexivity.
  - eapply IH; [| exact Hi].
    destruct (CumulativeMean_update_count s x) as [-> | ->]; lia.
Qed.

(** X9.  A fresh cumulative mean stream counts exactly the batches that
    have the column: after any pushes, [count] is their number, [total]
    the sum of their column sums, and an emitted mean is the one over the
    other.  A batch on which [update] raised contributes to neither. *)
Theorem cumulative_mean_counts_accepted_batches (col : string)
    (batches : list DataFrame) (i : nat)
    (s : CumulativeMean) (r : result Emission) :
  CumulativeMean_run (CumulativeMean_init col) batches !! i = Some (s, r) ->
  let sums := accepted_sums col (take (S i) batches) in
  count s = Z.of_nat (length sums)
  /\ (total s == q_sum sums)%Q
  /\ forall o l m,
       r = Ok (o, l, m) ->
       (m == q_sum sums / inject_Z (Z.of_nat (length sums)))%Q.
Proof.
  intros Hi. cbv zeta.
  destruct (CumulativeMean_run_accepts batches _ _ _ _ Hi) as [Hc Ht].
  cbn [CumulativeMean_init count total column] in Hc, Ht.
  assert (Htot : (total s == q_sum (accepted_sums col (take (S i) batches)))%Q)
    by (rewrite Ht; ring).
  split; [lia |]. split; [exact Htot |].
  intros o l m ->.
  assert (Hm : m = (total s / inject_Z (count s))%Q).
  { apply (CumulativeMean_run_mean batches (CumulativeMean_init col) i s o l m);
      [cbn; lia | exact Hi]. }
  rewrite Hm.
  rewrite Htot. replace (count s) with
    (Z.of_nat (length (accepted_sums col (take (S i) batches)))) by lia.
  reflexivity.
Qed.

Lemma cumulative_mean_counts_accepted_batches_witness :
  let batches := [trips 10 [1; 3]%Q; pd_DataFrame; trips 30 [4; 6]%Q] in
  let s := {| column := "passenger_count"; count := 2; total := 14%Q;
              oldest := Some (Some 10) |} in
  let sums := accepted_sums "passenger_count" (take 3 batches) in
  count s = Z.of_nat (length sums)
  /\ (total s == q_sum sums)%Q
  /\ forall o l m,
       Ok (Some 10, Some 31, (14 # 2)%Q) = Ok (o, l, m) ->
       (m == q_sum sums / inject_Z (Z.of_nat (length sums)))%Q.
Proof.
  intros batches s.
  apply (cumulative_mean_counts_accepted_batches "passenger_count" batches 2 s
           (Ok (Some 10, Some 31, (14 # 2)%Q))).
  reflexivity.
Defined.

(** ** What the streamz cumulative mean leaves in its queue *)

Lemma first_accepted_sum col xs x :
  first_accepted col xs = Some x -> exists sm, column_sum x col = Ok sm.
Proof.
  induction xs as [| x0 xs IH]; cbn [first_accepted]; [discriminate |].
  destruct (column_sum x0 col) as [sm | e] eqn:Hsum; cbn [is_ok].
  - intros [= <-]. eauto.
  - exact IH.
Qed.

(** The first batch that has the column, pushed to a fresh pipeline. *)
Lemma MeanQueue_push_first col history x sm :
  (1 <= history)%nat ->
  column_sum x col = Ok sm ->
  MeanQueue_push col history cumulative_mean_queue x
  = ({| mq_state := Tuple4 (0 + 1) (0 + sm)%Q (index_min x) (index_max x);
        mq_queue := [(index_min x, index_max x, ((0 + sm) / inject_Z (0 + 1))%Q)] |},
     Ok (index_min x, index_max x, ((0 + sm) / inject_Z (0 + 1))%Q))
  /\ snd (CumulativeMean_update (CumulativeMean_init col) x)
     = Ok (index_min x, index_max x, ((0 + sm) / inject_Z (0 + 1))%Q).
Proof.
  intros Hh Hsum. split.
  - unfold MeanQueue_push, cumulative_mean_queue, start, accumulator.
    cbn [mq_state mq_queue first_wins]. rewrite Hsum. cbn [rbind merge].
    rewrite truediv_nonzero by lia. cbn [rbind sink_append].
    rewrite deque_append_room by (cbn; lia). reflexivity.
  - rewrite (CumulativeMean_update_sum (CumulativeMean_init col) x sm Hsum)
      by (cbn; lia).
    reflexivity.
Qed.

Lemma MeanQueue_run_queue col history xs : forall i s r,
  (1 <= history)%nat ->
  MeanQueue_run col history cumulative_mean_queue xs !! i = Some (s, r) ->
  mq_queue s
  = match first_accepted col (take (S i) xs) with
    | None => []
    | Some x => emitted [snd (CumulativeMean_update (CumulativeMean_init col) x)]
    end.
Proof.
  induction xs as [| x xs IH]; intros i s r Hh Hi; [discriminate |].
  cbn [MeanQueue_run] in Hi.
  destruct (column_sum x col) as [sm | e] eqn:Hsum.
  - destruct (MeanQueue_push_first col history x sm Hh Hsum) as [Hpush Hcm].
    rewrite Hpush in Hi. cbn [fst] in Hi.
    assert (Hfirst : forall k, first_accepted col (take (S k) (x :: xs)) = Some x).
    { intros k. change (take (S k) (x :: xs)) with (x :: take k xs).
      cbn [first_accepted]. rewrite Hsum. reflexivity. }
    rewrite Hfirst, Hcm. cbn [emitted omap list_omap].
    destruct i as [| i]; cbn [lookup list_lookup] in Hi.
    + injection Hi as <- _. reflexivity.
    + apply MeanQueue_run_stuck in Hi as [-> _]; reflexivity.
  - assert (Hpush : MeanQueue_push col history cumulative_mean_queue x
                    = (cumulative_mean_queue, Raise e)).
    { unfold MeanQueue_push, cumulative_mean_queue, start, accumulator.
      cbn [mq_state first_wins]. rewrite Hsum. reflexivity. }
    rewrite Hpush in Hi. cbn [fst] in Hi.
    destruct i as [| i]; cbn [lookup list_lookup] in Hi.
    + injection Hi as <- _. change (take 1 (x :: xs)) with [x].
      cbn [first_accepted]. rewrite Hsum. reflexivity.
    + change (take (S (S i)) (x :: xs)) with (x :: take (S i) xs).
      cbn [first_accepted]. rewrite Hsum. cbn [is_ok].
      eapply IH; eassumption.
Qed.

(** X10.  With [history >= 1], however large, the queue of
    [cumulative_mean_queue] never holds more than one result: the one
    [CumulativeMean] would emit for that batch as its first, made of the
    index minimum and maximum and the column sum of the first batch that
    has the column.  No later batch changes it. *)
Theorem mean_queue_holds_first_batch_only (col : string) (history : nat)
    (batches : list DataFrame) (i : nat) (s : MeanQueue) (r : result Emission) :
  (1 <= history)%nat ->
  MeanQueue_run col history cumulative_mean_queue batches !! i = Some (s, r) ->
  match first_accepted col (take (S i) batches) with
  | None => mq_queue s = []
  | Some x =>
      mq_queue s
      = emitted [snd (CumulativeMean_update (CumulativeMean_init col) x)]
      /\ exists sm m,
           column_sum x col = Ok sm
           /\ mq_queue s = [(index_min x, index_max x, m)]
           /\ (m == sm)%Q
  end.
Proof.
  intros Hh Hi.
  pose proof (MeanQueue_run_queue col history batches i s r Hh Hi) as Hq.
  destruct (first_accepted col (take (S i) batches)) as [x |] eqn:Hfirst;
    [| exact Hq].
  split; [exact Hq |].
  destruct (first_accepted_sum col _ x Hfirst) as [sm Hsum].
  destruct (MeanQueue_push_first col history x sm Hh Hsum) as [_ Hcm].
  rewrite Hcm in Hq. cbn [emitted omap list_omap] in Hq.
  exists sm, ((0 + sm) / inject_Z (0 + 1))%Q.
  split; [exact Hsum |]. split; [exact Hq |].
  change (inject_Z (0 + 1)) with 1%Q. field.
Qed.

Lemma mean_queue_holds_first_batch_only_witness :
  let batches := [pd_DataFrame; trips 10 [1; 3]%Q; trips 20 [6]%Q] in
  let s := {| mq_state := Tuple4 1 4%Q (Some 10) (Some 11);
              mq_queue := [(Some 10, Some 11, 4%Q)] |} in
  match first_accepted "passenger_count" (take 3 batches) with
  | None => mq_queue s = []
  | Some x =>
      mq_queue s
      = emitted [snd (CumulativeMean_update
                        (CumulativeMean_init "passenger_count") x)]
      /\ exists sm m,
           column_sum x "passenger_count" = Ok sm
           /\ mq_queue s = [(index_min x, index_max x, m)]
           /\ (m == sm)%Q
  end.
Proof.
  intros batches s.
  apply (mean_queue_holds_first_batch_only "passenger_count" 7 batches 2 s
           (Raise ValueError)).
  - lia.
  - reflexivity.
Defined.

(** ** The source of batches *)

Lemma cycle_next_mod n i :
  (i < n)%nat -> cycle_next n i = (S i mod n)%nat /\ (cycle_next n i < n)%nat.
Proof.
  intros Hi. unfold cycle_next.
  destruct (Nat.ltb_spec (S i) n) as [Hlt | Hge].
  - rewrite Nat.mod_small by lia. lia.
  - replace (S i) with n by lia. rewrite Nat.Div0.mod_same. lia.
Qed.

Lemma TripsStream_take_lookup k : forall g j,
  (position g < length (chunks g))%nat ->
  (j < k)%nat ->
  length (TripsStream_take k g) = k
  /\ TripsStream_take k g !! j
     = chunks g !! ((position g + j) mod length (chunks g))%nat.
Proof.
  induction k as [| k IH]; intros g j Hpos Hj; [lia |].
  destruct (lookup_lt_is_Some_2 (chunks g) (position g) Hpos) as [c Hc].
  destruct (cycle_next_mod (length (chunks g)) (position g) Hpos) as [Hnext Hlt].
  cbn [TripsStream_take]. unfold TripsStream_next. rewrite Hc.
  set (g' := {| chunks := chunks g;
                position := cycle_next (length (chunks g)) (position g) |}).
  assert (Hlen : length (TripsStream_take k g') = k).
  { destruct k as [| k']; [reflexivity |].
    apply (IH g' 0%nat); [exact Hlt | lia]. }
  cbn [length]. split; [lia |].
  destruct j as [| j]; cbn [lookup list_lookup].
  - rewrite Nat.add_0_r, Nat.mod_small by lia. symmetry. exact Hc.
  - destruct (IH g' j) as [_ Hj']; [exact Hlt | lia |].
    etransitivity; [exact Hj' |]. cbn [g' chunks position]. f_equal.
    rewrite Hnext, Nat.Div0.add_mod_idemp_l. f_equal. lia.
Qed.

(** X11.  [taxi_trips_stream] never runs dry and repeats its chunks in
    a cycle: when the resampler has groups, the [j]-th batch it yields
    (counting from 0) is the chunk of the [(j mod n)]-th smallest key,
    with [n] the number of groups, and a key without rows gives
    [pd.DataFrame()].  Without any group it yields nothing. *)
Theorem taxi_trips_stream_cycles (groups : list Z) (frames : gmap Z DataFrame)
    (k j : nat) :
  (j < k)%nat ->
  let g := taxi_trips_stream groups frames in
  (groups = [] -> TripsStream_take k g = [])
  /\ (groups <> [] ->
      length (TripsStream_take k g) = k
      /\ exists key,
           merge_sort Z.le groups !! (j mod length groups)%nat = Some key
           /\ TripsStream_take k g !! j = Some (get_group frames key)
           /\ (frames !! key = None ->
               TripsStream_take k g !! j = Some pd_DataFrame)).
Proof.
  intros Hj. cbv zeta.
  assert (Hlen : length (merge_sort Z.le groups) = length groups)
    by (apply Permutation_length, merge_sort_Permutation).
  split.
  - intros ->. destruct k as [| k]; reflexivity.
  - intros Hne.
    assert (Hpos : (0 < length groups)%nat)
      by (destruct groups; [contradiction | cbn; lia]).
    destruct (TripsStream_take_lookup k (taxi_trips_stream groups frames) j)
      as [Hk Hlook]; [| exact Hj |].
    { cbn [taxi_trips_stream chunks position]. rewrite length_map. lia. }
    split; [exact Hk |].
    cbn [taxi_trips_stream chunks position Nat.add] in Hlook.
    rewrite length_map, Hlen in Hlook.
    destruct (lookup_lt_is_Some_2 (merge_sort Z.le groups) (j mod length groups))
      as [key Hkey].
    { rewrite Hlen. apply Nat.mod_upper_bound. lia. }
    exists key. split; [exact Hkey |].
    rewrite list_lookup_fmap in Hlook || rewrite list_lookup_map in Hlook.
    rewrite Hkey in Hlook. cbn in Hlook.
    split; [exact Hlook |].
    intros Hnone. rewrite Hlook. unfold get_group. rewrite Hnone. reflexivity.
Qed.

Lemma taxi_trips_stream_cycles_witness :
  let frames : gmap Z DataFrame := {[ 3 := day 30 1; 1 := day 10 5 ]} in
  let g := taxi_trips_stream [3; 1; 2] frames in
  ([3; 1; 2] = [] -> TripsStream_take 5 g = [])
  /\ ([3; 1; 2] <> [] ->
      length (TripsStream_take 5 g) = 5%nat
      /\ exists key,
           merge_sort Z.le [3; 1; 2] !! (4 mod length [3; 1; 2])%nat = Some key
           /\ TripsStream_take 5 g !! 4%nat = Some (get_group frames key)
           /\ (frames !! key = None ->
               TripsStream_take 5 g !! 4%nat = Some pd_DataFrame)).
Proof.
  intros frames g.
  apply (taxi_trips_stream_cycles [3; 1; 2] frames 5 4). lia.
Defined.

(** ** Several streams on one source *)

Section EngineFacts.
Context {Payload : Type}.
Variable padd : Payload -> Payload -> Payload.
Variable points : DataFrame -> result Payload.
Variable str : pyts -> string.

Local Abbreviation upd := (Aggregator_update padd points str).
Local Abbreviation emit := (source_emit padd points str).

Lemma source_emit_ok cs : forall x cs',
  emit cs x = (cs', Ok tt) ->
  Forall (fun a => snd (upd a x) = Ok tt) cs
  /\ cs' = map (fun a => fst (upd a x)) cs.
Proof.
  induction cs as [| a cs IH]; intros x cs' Hemit; cbn [source_emit] in Hemit.
  - injection Hemit as <-. split; [constructor | reflexivity].
  - destruct (snd (upd a x)) as [[] | e] eqn:Ha; [| discriminate].
    destruct (emit cs x) as [rest r] eqn:Hrest. cbn [fst snd] in Hemit.
    injection Hemit as <- ->.
    destruct (IH x rest Hrest) as [Hall ->].
    split; [constructor; assumption | reflexivity].
Qed.

Lemma source_emit_raise cs : forall x cs' e,
  emit cs x = (cs', Raise e) ->
  exists pre a post,
    cs = pre ++ a :: post
    /\ Forall (fun b => snd (upd b x) = Ok tt) pre
    /\ snd (upd a x) = Raise e
    /\ cs' = map (fun b => fst (upd b x)) pre ++ fst (upd a x) :: post.
Proof.
  induction cs as [| a cs IH]; intros x cs' e Hemit; cbn [source_emit] in Hemit;
    [discriminate |].
  destruct (snd (upd a x)) as [[] | e0] eqn:Ha.
  - destruct (emit cs x) as [rest r] eqn:Hrest. cbn [fst snd] in Hemit.
    injection Hemit as <- ->.
    destruct (IH x rest e Hrest) as (pre & b & post & -> & Hpre & Hb & ->).
    exists (a :: pre), b, post. repeat split; auto.
  - injection Hemit as <- <-. exists [], a, cs. repeat split; auto.
Qed.

Lemma Aggregator_update_bounded a x :
  Aggregator_bounded a -> Aggregator_bounded (fst (upd a x)).
Proof.
  destruct a as [s history q | s history q]; cbn [Aggregator_update fst];
    intros [Hs Hq].
  - destruct (SlidingWindow_update_bounded padd points str s x Hs) as [Hn Hc].
    split; [rewrite Hn; exact Hc |].
    destruct (snd (SlidingWindow_update padd points str s x)); cbn [sink_append];
      [apply deque_append_bounded |]; assumption.
  - split.
    + destruct (CumulativeMean_update_count s x) as [-> | ->]; lia.
    + destruct (snd (CumulativeMean_update s x)); cbn [sink_append];
        [apply deque_append_bounded |]; assumption.
Qed.

Lemma source_emit_bounded cs : forall x,
  Forall Aggregator_bounded cs ->
  Forall Aggregator_bounded (fst (emit cs x))
  /\ length (fst (emit cs x)) = length cs.
Proof.
  induction cs as [| a cs IH]; intros x Hall; cbn [source_emit].
  - split; [constructor | reflexivity].
  - inversion Hall as [| ? ? Ha Hcs]; subst.
    pose proof (Aggregator_update_bounded a x Ha) as Ha'.
    destruct (snd (upd a x)); cbn [fst length].
    + destruct (IH x Hcs) as [Hb Hl]. split; [constructor; assumption | lia].
    + split; [constructor; assumption | reflexivity].
Qed.

End EngineFacts.

(** X12.  [source.emit] updates the streams in the order they were
    registered and stops at the first one that raises: the streams before
    it keep the update they made (and what they put in their queues),
    the one that raised keeps whatever it changed before raising, and the
    streams after it are not touched.  When none raises, all are
    updated. *)
Theorem source_emit_stops_at_first_failure {Payload : Type}
    (padd : Payload -> Payload -> Payload)
    (points : DataFrame -> result Payload) (str : pyts -> string)
    (children children' : list (Aggregator Payload)) (x : DataFrame)
    (r : result unit) :
  source_emit padd points str children x = (children', r) ->
  match r with
  | Ok _ =>
      Forall (fun a => snd (Aggregator_update padd points str a x) = Ok tt) children
      /\ children' = map (fun a => fst (Aggregator_update padd points str a x)) children
  | Raise e =>
      exists before a after,
        children = before ++ a :: after
        /\ Forall (fun b => snd (Aggregator_update padd points str b x) = Ok tt) before
        /\ snd (Aggregator_update padd points str a x) = Raise e
        /\ children'
           = map (fun b => fst (Aggregator_update padd points str b x)) before
             ++ fst (Aggregator_update padd points str a x) :: after
  end.
Proof.
  intros Hemit. destruct r as [[] | e].
  - apply source_emit_ok. exact Hemit.
  - apply source_emit_raise. exact Hemit.
Qed.

Lemma source_emit_stops_at_first_failure_witness :
  let children :=
    [AggWindow (SlidingWindow_init 2) 6 [];
     AggMean (CumulativeMean_init "passenger_count") 7 [];
     AggMean (CumulativeMean_init "total_amount") 7 []] in
  let x := {| df_index := [10; 11];
              df_columns := {[ "pickup_x" := [1%Q; (-1)%Q];
                               "pickup_y" := [0%Q; 0%Q];
                               "total_amount" := [5%Q; 2%Q] ]} |} in
  exists before a after,
    children = before ++ a :: after
    /\ Forall (fun b => snd (Aggregator_update raster_add demo_points demo_str b x)
                        = Ok tt) before
    /\ snd (Aggregator_update raster_add demo_points demo_str a x)
       = Raise (KeyError "passenger_count")
    /\ fst (source_emit raster_add demo_points demo_str children x)
       = map (fun b => fst (Aggregator_update raster_add demo_points demo_str b x))
           before
         ++ fst (Aggregator_update raster_add demo_points demo_str a x) :: after.
Proof.
  intros children x.
  apply (source_emit_stops_at_first_failure raster_add demo_points demo_str
           children
           (fst (source_emit raster_add demo_points demo_str children x)) x
           (Raise (KeyError "passenger_count"))).
  reflexivity.
Defined.

(** X13.  However many batches are pushed and whichever updates raise,
    the streams on a source stay within their bounds: no window holds
    more than its [n] partial aggregates, no queue more than its
    [history] results, no count is negative, and no stream is added or
    lost. *)
Theorem source_emit_keeps_bounds {Payload : Type}
    (padd : Payload -> Payload -> Payload)
    (points : DataFrame -> result Payload) (str : pyts -> string)
    (children : list (Aggregator Payload)) (batches : list DataFrame) :
  Forall Aggregator_bounded children ->
  let after :=
    foldl (fun cs x => fst (source_emit padd points str cs x)) children batches in
  Forall Aggregator_bounded after /\ length after = length children.
Proof.
  cbv zeta. revert children.
  induction batches as [| x batches IH]; intros children Hall; cbn [foldl];
    [split; [exact Hall | reflexivity] |].
  destruct (source_emit_bounded padd points str children x Hall) as [Hb Hl].
  destruct (IH _ Hb) as [Hb' Hl']. split; [exact Hb' | lia].
Qed.

Lemma source_emit_keeps_bounds_witness :
  let children :=
    [AggWindow (SlidingWindow_init 2) 6 [];
     AggWindow (SlidingWindow_init 7) 1 [];
     AggMean (CumulativeMean_init "passenger_count") 7 [];
     AggMean (CumulativeMean_init "total_amount") 7 []] in
  let after :=
    foldl (fun cs x => fst (source_emit raster_add demo_points demo_str cs x))
      children [day 10 5; pd_DataFrame; day 20 7] in
  Forall Aggregator_bounded after /\ length after = length children.
Proof.
  intros children.
  apply (source_emit_keeps_bounds raster_add demo_points demo_str children
           [day 10 5; pd_DataFrame; day 20 7]).
  repeat constructor; cbn; lia.
Defined.

(** ** Windows over batches in time order *)

Section OrderedStream.
Context {Payload : Type}.
Variable padd : Payload -> Payload -> Payload.
Variable points : DataFrame -> result Payload.
Variable str : pyts -> string.

Lemma ts_leb_present (a b : pyts) : ts_leb a b = true -> present a = true.
Proof. destruct a, b; cbn; congruence. Qed.

Lemma time_ordered_tail (p : PartialAggregate Payload) w :
  time_ordered (p :: w) = true -> time_ordered w = true.
Proof.
  destruct w as [| q w]; [reflexivity |]. cbn [time_ordered].
  intros Hord. apply andb_prop in Hord as [_ Hrest]. exact Hrest.
Qed.

Lemma time_ordered_drop k : forall w : list (PartialAggregate Payload),
  time_ordered w = true -> time_ordered (drop k w) = true.
Proof.
  induction k as [| k IH]; intros w Hord; [exact Hord |].
  destruct w as [| p w]; [reflexivity |].
  cbn [drop]. apply IH. eapply time_ordered_tail. exact Hord.
Qed.

Lemma time_ordered_take (w : list (PartialAggregate Payload)) : forall k,
  time_ordered w = true -> time_ordered (take k w) = true.
Proof.
  induction w as [| p w IH]; intros k Hord; [destruct k; reflexivity |].
  destruct k as [| k]; [reflexivity |].
  destruct w as [| q w]; [destruct k; exact Hord |].
  pose proof (IH k (time_ordered_tail _ _ Hord)) as Hrest.
  cbn [time_ordered] in Hord.
  apply andb_prop in Hord as [Hord _]. apply andb_prop in Hord as [Hmin Hmax].
  destruct k as [| k].
  - change (take 1 (p :: q :: w)) with [p]. cbn [time_ordered].
    rewrite (ts_leb_present _ _ Hmin), (ts_leb_present _ _ Hmax). reflexivity.
  - change (take (S (S k)) (p :: q :: w)) with (p :: q :: take k w).
    change (take (S k) (q :: w)) with (q :: take k w) in Hrest.
    cbn [time_ordered]. cbn [time_ordered] in Hrest.
    rewrite Hmin, Hmax. exact Hrest.
Qed.

Lemma partials_in_order xs :
  Forall (fun x => is_ok (points x) = true) xs ->
  frames_in_order xs = true ->
  time_ordered (partials points xs) = true
  /\ match xs with
     | [] => True
     | x :: _ =>
         exists a rest,
           partials points xs = mkPartial (index_min x) (index_max x) a :: rest
     end.
Proof.
  induction xs as [| x xs IH]; intros Hall Hord; [split; [reflexivity | exact I] |].
  inversion Hall as [| ? ? Hx Hxs]; subst.
  destruct (points x) as [a | e] eqn:Hp; [clear Hx | discriminate].
  assert (Hpx : partials points (x :: xs)
                = mkPartial (index_min x) (index_max x) a :: partials points xs).
  { apply partials_cons_ok. unfold aggregate_df. rewrite Hp. reflexivity. }
  rewrite Hpx. split; [| eauto].
  destruct xs as [| y xs].
  - cbn [frames_in_order] in Hord. exact Hord.
  - cbn [frames_in_order] in Hord.
    apply andb_prop in Hord as [Hord Hrest].
    destruct (IH Hxs Hrest) as [Hto (b & rest & Hpy)].
    rewrite Hpy in Hto |- *. cbn [time_ordered minTimestamp maxTimestamp].
    rewrite Hord. exact Hto.
Qed.

Lemma partials_take xs : forall k,
  Forall (fun x => is_ok (points x) = true) xs ->
  partials points (take k xs) = take k (partials points xs).
Proof.
  induction xs as [| x xs IH]; intros k Hall; [destruct k; reflexivity |].
  inversion Hall as [| ? ? Hx Hxs]; subst.
  destruct (points x) as [a | e] eqn:Hp; [clear Hx | discriminate].
  assert (Hagg : aggregate_df points x
                 = Ok (mkPartial (index_min x) (index_max x) a))
    by (unfold aggregate_df; rewrite Hp; reflexivity).
  destruct k as [| k]; [reflexivity |].
  change (take (S k) (x :: xs)) with (x :: take k xs).
  rewrite !(partials_cons_ok points _ _ _ Hagg).
  cbn [take]. f_equal. apply IH. exact Hxs.
Qed.

End OrderedStream.

(** X14.  When the batches pushed are in time order and the reducer
    accepts them, every window a [SlidingWindowImageAggregate] of size
    [n >= 1] combines is in time order, so the name of every image it
    emits is written from the minimum of all the window's minima and the
    maximum of all its maxima. *)
Theorem sliding_window_names_ordered_stream {Payload : Type}
    (padd : Payload -> Payload -> Payload)
    (points : DataFrame -> result Payload) (str : pyts -> string)
    (n : nat) (batches : list DataFrame) (i : nat) :
  (1 <= n)%nat ->
  Forall (fun x => is_ok (points x) = true) batches ->
  frames_in_order batches = true ->
  (i < length batches)%nat ->
  exists s img,
    SlidingWindow_run padd points str (SlidingWindow_init n) batches !! i
    = Some (s, Ok img)
    /\ time_ordered (cache s) = true
    /\ img_name img
       = format_name (str (spec_rangeStart (cache s))) (str (spec_rangeEnd (cache s))).
Proof.
  intros Hn Hall Hord Hi.
  destruct (SlidingWindow_run_emits padd points str batches
              (SlidingWindow_init n)) with (i := i)
    as (s & img & Hrun & Himg & Hlen); cbn; try assumption; try lia.
  exists s, img. split; [exact Hrun |].
  assert (Hto : time_ordered (cache s) = true).
  { pose proof (SlidingWindow_run_cache padd points str batches _ _ _ _ Hrun)
      as [_ Hc].
    cbn [SlidingWindow_init cache sw_n] in Hc.
    rewrite deque_extend_drop in Hc by (cbn; lia). rewrite Hc.
    apply time_ordered_drop. cbn [app].
    rewrite (partials_take points batches (S i) Hall).
    apply time_ordered_take.
    apply (partials_in_order points batches Hall Hord). }
  split; [exact Hto |].
  destruct (aggregate_images_data padd str (cache s) img Himg)
    as (_ & a & b & Ha & Hb & Hname).
  destruct (cache s) as [| p w] eqn:Hcache; [discriminate |].
  rewrite (spec_rangeStart_ordered w p Hto).
  destruct (spec_rangeEnd_ordered w p Hto) as (b0 & e & _ & _ & Hspec & Hend).
  rewrite Hspec. rewrite range_start_cons in Ha.
  rewrite Hname. congruence.
Qed.

Lemma sliding_window_names_ordered_stream_witness :
  exists s img,
    SlidingWindow_run raster_add demo_points demo_str (SlidingWindow_init 2)
      [day 10 5; day 20 7; day 30 1] !! 2%nat
    = Some (s, Ok img)
    /\ time_ordered (cache s) = true
    /\ img_name img
       = format_name (demo_str (spec_rangeStart (cache s)))
           (demo_str (spec_rangeEnd (cache s))).
Proof.
  apply (sliding_window_names_ordered_stream raster_add demo_points demo_str 2
           [day 10 5; day 20 7; day 30 1] 2).
  - lia.
  - repeat constructor.
  - reflexivity.
  - cbn [length]. lia.
Defined.
